(** * The JS <-> NaCl request protocol of the unarchiver (unpacker/js/request.js)

    A shallow embedding of the [request] module: the wire key names, the
    operation enumeration and the seven envelope constructors, run over an
    explicit object store, followed by the properties of the protocol
    description that concern them. *)

From Stdlib Require Import ZArith Lia Ascii String Strings.Byte DecimalString DecimalPos DecimalZ DecimalFacts.
From stdpp Require Import gmap strings list fin_maps.

Open Scope Z_scope.
Open Scope string_scope.

(** ** JavaScript values, exceptions and the object store *)

#[local] Set Warnings "-register-all".

(** The values the module handles.  [JsNumber z] is the Number that holds
    the integer [z] (request ids, sizes, offsets and lengths are integers),
    [JsNaN] and [JsInfinity] are the Numbers that are no number at all and
    the two infinities; fractions are left out.  An ArrayBuffer is modelled
    by its bytes, a plain object (a dictionary) by its own properties, whose
    values are values of this type, so that none of them is a function. *)
Inductive JsValue : Type :=
  | JsUndefined
  | JsNull
  | JsBoolean (b : bool)
  | JsNumber (z : Z)
  | JsString (s : string)
  | JsArrayBuffer (bytes : list Byte.byte)
  | JsDictionary (entries : list (string * JsValue))
  | JsNaN
  | JsInfinity (negative : bool).

Inductive JsError : Type :=
  | TypeError.

Inductive Completion (A : Type) : Type :=
  | Normal (a : A)
  | Throw (e : JsError).
Arguments Normal {A} a.
Arguments Throw {A} e.

(** An object is a finite map from property names to values; the store holds
    the objects in allocation order and a reference is an index into it. *)
Abbreviation Heap := (list (gmap string JsValue)).
Abbreviation Ref := nat.

(** Computations thread the store; a thrown exception keeps the store as it
    was at the throw. *)
Definition Js (A : Type) : Type := Heap -> Completion A * Heap.

Definition ret {A} (a : A) : Js A := fun h => (Normal a, h).

Definition throw {A} (e : JsError) : Js A := fun h => (Throw e, h).

Definition bind {A B} (m : Js A) (k : A -> Js B) : Js B :=
  fun h =>
    match m h with
    | (Normal a, h') => k a h'
    | (Throw e, h') => (Throw e, h')
    end.

#[global] Instance Js_ret : MRet Js := @ret.
#[global] Instance Js_bind : MBind Js := fun A B k m => bind m k.

(** [{}] : a fresh empty object at the end of the store. *)
Definition new_object : Js Ref :=
  fun h => (Normal (List.length h), (h ++ [∅])%list).

(** [o[k] = v] *)
Definition set_prop (o : Ref) (k : string) (v : JsValue) : Js unit :=
  fun h => (Normal tt, alter (fun obj : gmap string JsValue => <[k := v]> obj) o h).

(** Number.MAX_SAFE_INTEGER, 2^53 - 1. *)
Definition MAX_SAFE_INTEGER : Z := 9007199254740991.

(** Number.isSafeInteger on an integer. *)
Definition is_safe_integer (z : Z) : bool := (Z.abs z <=? MAX_SAFE_INTEGER)%Z.

(** Number.prototype.toString on an integer: its decimal digits, with a
    leading minus sign below zero.  That is what JavaScript prints for the
    safe integers; from 2^53 on a Number is printed with the fewest digits
    that tell it from its neighbours, and from 10^21 on with an exponent,
    so the properties that depend on the digits are stated for safe
    integers. *)
Definition number_toString (z : Z) : string :=
  NilZero.string_of_int (Z.to_int z).

(** Whether an object has an own property called [k]. *)
Definition has_own (k : string) (entries : list (string * JsValue)) : bool :=
  existsb (fun e => String.eqb (fst e) k) entries.

(** [v.toString()] as a value.  Member access on undefined or null throws a
    TypeError; a string is its own rendering; a plain object answers with
    Object.prototype.toString unless it has an own property toString, which
    is then what is called, and is no function: a TypeError again. *)
Definition toString (v : JsValue) : Completion string :=
  match v with
  | JsUndefined | JsNull => Throw TypeError
  | JsBoolean b => Normal (if b then "true" else "false")
  | JsNumber z => Normal (number_toString z)
  | JsString s => Normal s
  | JsArrayBuffer _ => Normal "[object ArrayBuffer]"
  | JsDictionary entries =>
      if has_own "toString" entries then Throw TypeError
      else Normal "[object Object]"
  | JsNaN => Normal "NaN"
  | JsInfinity negative => Normal (if negative then "-Infinity" else "Infinity")
  end.

(** The call [v.toString()] inside a computation: it leaves the store alone. *)
Definition call_toString (v : JsValue) : Js string :=
  fun h => (toString v, h).

(** ** request.Key *)

Module Key.
(* Mandatory keys for all requests. *)
Definition OPERATION : string := "operation".
Definition FILE_SYSTEM_ID : string := "file_system_id".
Definition REQUEST_ID : string := "request_id".
(* Optional keys depending on request operation. *)
Definition ERROR : string := "error".
Definition METADATA : string := "metadata".
Definition ARCHIVE_SIZE : string := "archive_size".
Definition CHUNK_BUFFER : string := "chunk_buffer".
Definition OFFSET : string := "offset".
Definition LENGTH : string := "length".
Definition FILE_PATH : string := "file_path".
Definition OPEN_REQUEST_ID : string := "open_request_id".
Definition READ_FILE_DATA : string := "read_file_data".
Definition HAS_MORE_DATA : string := "has_more_data".

(** The values of the [Key] object, in source order. *)
Definition values : list string :=
  [OPERATION; FILE_SYSTEM_ID; REQUEST_ID; ERROR; METADATA; ARCHIVE_SIZE;
   CHUNK_BUFFER; OFFSET; LENGTH; FILE_PATH; OPEN_REQUEST_ID; READ_FILE_DATA;
   HAS_MORE_DATA].

Definition mandatory : list string :=
  [OPERATION; FILE_SYSTEM_ID; REQUEST_ID].
End Key.

(** ** request.Operation *)

Module Operation.
Inductive t : Type :=
  | READ_METADATA
  | READ_METADATA_DONE
  | READ_CHUNK
  | READ_CHUNK_DONE
  | READ_CHUNK_ERROR
  | CLOSE_VOLUME
  | OPEN_FILE
  | OPEN_FILE_DONE
  | CLOSE_FILE
  | CLOSE_FILE_DONE
  | READ_FILE
  | READ_FILE_DONE
  | FILE_SYSTEM_ERROR.

Definition code (o : t) : Z :=
  match o with
  | READ_METADATA => 0
  | READ_METADATA_DONE => 1
  | READ_CHUNK => 2
  | READ_CHUNK_DONE => 3
  | READ_CHUNK_ERROR => 4
  | CLOSE_VOLUME => 5
  | OPEN_FILE => 6
  | OPEN_FILE_DONE => 7
  | CLOSE_FILE => 8
  | CLOSE_FILE_DONE => 9
  | READ_FILE => 10
  | READ_FILE_DONE => 11
  | FILE_SYSTEM_ERROR => -1
  end.

Definition name (o : t) : string :=
  match o with
  | READ_METADATA => "READ_METADATA"
  | READ_METADATA_DONE => "READ_METADATA_DONE"
  | READ_CHUNK => "READ_CHUNK"
  | READ_CHUNK_DONE => "READ_CHUNK_DONE"
  | READ_CHUNK_ERROR => "READ_CHUNK_ERROR"
  | CLOSE_VOLUME => "CLOSE_VOLUME"
  | OPEN_FILE => "OPEN_FILE"
  | OPEN_FILE_DONE => "OPEN_FILE_DONE"
  | CLOSE_FILE => "CLOSE_FILE"
  | CLOSE_FILE_DONE => "CLOSE_FILE_DONE"
  | READ_FILE => "READ_FILE"
  | READ_FILE_DONE => "READ_FILE_DONE"
  | FILE_SYSTEM_ERROR => "FILE_SYSTEM_ERROR"
  end.

(** The members of the enumeration, in source order. *)
Definition all : list t :=
  [READ_METADATA; READ_METADATA_DONE; READ_CHUNK; READ_CHUNK_DONE;
   READ_CHUNK_ERROR; CLOSE_VOLUME; OPEN_FILE; OPEN_FILE_DONE; CLOSE_FILE;
   CLOSE_FILE_DONE; READ_FILE; READ_FILE_DONE; FILE_SYSTEM_ERROR].

(** The [Operation] object literal itself: property name and value. *)
Definition entries : list (string * Z) :=
  [("READ_METADATA", 0); ("READ_METADATA_DONE", 1); ("READ_CHUNK", 2);
   ("READ_CHUNK_DONE", 3); ("READ_CHUNK_ERROR", 4); ("CLOSE_VOLUME", 5);
   ("OPEN_FILE", 6); ("OPEN_FILE_DONE", 7); ("CLOSE_FILE", 8);
   ("CLOSE_FILE_DONE", 9); ("READ_FILE", 10); ("READ_FILE_DONE", 11);
   ("FILE_SYSTEM_ERROR", -1)].

(** Reading a member back from its numeric value. *)
Definition of_code (z : Z) : option t :=
  List.find (fun o => Z.eqb (code o) z) all.

(** [Operation[n]]: the value of the member called [n], if there is one. *)
Definition get (n : string) : option Z :=
  snd <$> List.find (fun e => String.eqb (fst e) n) entries.

(** The member that reports request [o] as done, by the naming of the
    enumeration: the one called [o]_DONE. *)
Definition done_of (o : t) : option Z := get (name o ++ "_DONE").

#[global] Instance eq_dec : EqDecision t.
Proof. solve_decision. Defined.
End Operation.

(** ** The constructors *)

(** Creates a basic request with mandatory fields. *)
Definition createBasic_ (operation fileSystemId requestId : JsValue) : Js Ref :=
  basicRequest ← new_object;
  set_prop basicRequest Key.OPERATION operation;;
  set_prop basicRequest Key.FILE_SYSTEM_ID fileSystemId;;
  s ← call_toString requestId;
  set_prop basicRequest Key.REQUEST_ID (JsString s);;
  mret basicRequest.

Definition op_value (o : Operation.t) : JsValue := JsNumber (Operation.code o).

(** Creates a read metadata request. *)
Definition createReadMetadataRequest
    (fileSystemId requestId archiveSize : JsValue) : Js Ref :=
  readMetadataRequest ← createBasic_ (op_value Operation.READ_METADATA) fileSystemId requestId;
  s ← call_toString archiveSize;
  set_prop readMetadataRequest Key.ARCHIVE_SIZE (JsString s);;
  mret readMetadataRequest.

(** Creates a read chunk done response. *)
Definition createReadChunkDoneResponse
    (fileSystemId requestId buffer : JsValue) : Js Ref :=
  response ← createBasic_ (op_value Operation.READ_CHUNK_DONE) fileSystemId requestId;
  set_prop response Key.CHUNK_BUFFER buffer;;
  mret response.

(** Creates a read chunk error response. *)
Definition createReadChunkErrorResponse
    (fileSystemId requestId : JsValue) : Js Ref :=
  createBasic_ (op_value Operation.READ_CHUNK_ERROR) fileSystemId requestId.

(** Creates a request to close a volume related to a fileSystemId. *)
Definition createCloseVolumeRequest (fileSystemId : JsValue) : Js Ref :=
  createBasic_ (op_value Operation.CLOSE_VOLUME) fileSystemId (JsNumber (-1)).

(** Creates an open file request. *)
Definition createOpenFileRequest
    (fileSystemId requestId filePath archiveSize : JsValue) : Js Ref :=
  openFileRequest ← createBasic_ (op_value Operation.OPEN_FILE) fileSystemId requestId;
  set_prop openFileRequest Key.FILE_PATH filePath;;
  s ← call_toString archiveSize;
  set_prop openFileRequest Key.ARCHIVE_SIZE (JsString s);;
  mret openFileRequest.

(** Creates a close file request. *)
Definition createCloseFileRequest
    (fileSystemId requestId openRequestId : JsValue) : Js Ref :=
  closeFileRequest ← createBasic_ (op_value Operation.CLOSE_FILE) fileSystemId requestId;
  s ← call_toString openRequestId;
  set_prop closeFileRequest Key.OPEN_REQUEST_ID (JsString s);;
  mret closeFileRequest.

(** Creates a read file request. *)
Definition createReadFileRequest
    (fileSystemId requestId openRequestId offset length : JsValue) : Js Ref :=
  readFileRequest ← createBasic_ (op_value Operation.READ_FILE) fileSystemId requestId;
  s ← call_toString openRequestId;
  set_prop readFileRequest Key.OPEN_REQUEST_ID (JsString s);;
  s' ← call_toString offset;
  set_prop readFileRequest Key.OFFSET (JsString s');;
  set_prop readFileRequest Key.LENGTH length;;
  mret readFileRequest.

(** ** Calls and what they return *)

(** A call of one of the seven public constructors with its arguments. *)
Inductive Call : Type :=
  | CallReadMetadata (fileSystemId requestId archiveSize : JsValue)
  | CallReadChunkDone (fileSystemId requestId buffer : JsValue)
  | CallReadChunkError (fileSystemId requestId : JsValue)
  | CallCloseVolume (fileSystemId : JsValue)
  | CallOpenFile (fileSystemId requestId filePath archiveSize : JsValue)
  | CallCloseFile (fileSystemId requestId openRequestId : JsValue)
  | CallReadFile (fileSystemId requestId openRequestId offset length : JsValue).

Definition run (c : Call) : Js Ref :=
  match c with
  | CallReadMetadata fs rid size => createReadMetadataRequest fs rid size
  | CallReadChunkDone fs rid buf => createReadChunkDoneResponse fs rid buf
  | CallReadChunkError fs rid => createReadChunkErrorResponse fs rid
  | CallCloseVolume fs => createCloseVolumeRequest fs
  | CallOpenFile fs rid path size => createOpenFileRequest fs rid path size
  | CallCloseFile fs rid orid => createCloseFileRequest fs rid orid
  | CallReadFile fs rid orid off len => createReadFileRequest fs rid orid off len
  end.

(** The operation a constructor is written for. *)
Definition call_operation (c : Call) : Operation.t :=
  match c with
  | CallReadMetadata _ _ _ => Operation.READ_METADATA
  | CallReadChunkDone _ _ _ => Operation.READ_CHUNK_DONE
  | CallReadChunkError _ _ => Operation.READ_CHUNK_ERROR
  | CallCloseVolume _ => Operation.CLOSE_VOLUME
  | CallOpenFile _ _ _ _ => Operation.OPEN_FILE
  | CallCloseFile _ _ _ => Operation.CLOSE_FILE
  | CallReadFile _ _ _ _ _ => Operation.READ_FILE
  end.

(** The envelope a finished call hands back: the object its reference
    denotes in the store it leaves. *)
Definition returned (out : Completion Ref * Heap) : option (gmap string JsValue) :=
  match out with
  | (Normal r, h) => h !! r
  | (Throw _, _) => None
  end.

(** The value stored under a key of the returned envelope. *)
Definition field (out : Completion Ref * Heap) (k : string) : option JsValue :=
  match returned out with
  | Some env => env !! k
  | None => None
  end.

(** How a call ended: the exception it threw, if any. *)
Definition thrown (out : Completion Ref * Heap) : option JsError :=
  match out with
  | (Normal _, _) => None
  | (Throw e, _) => Some e
  end.

(** The file system id a call is given. *)
Definition call_fileSystemId (c : Call) : JsValue :=
  match c with
  | CallReadMetadata fs _ _ | CallReadChunkDone fs _ _ | CallReadChunkError fs _
  | CallCloseVolume fs | CallOpenFile fs _ _ _ | CallCloseFile fs _ _
  | CallReadFile fs _ _ _ _ => fs
  end.

(** The request id handed to [createBasic_]: an argument, except for
    close-volume, where it is the constant -1. *)
Definition call_requestId (c : Call) : JsValue :=
  match c with
  | CallReadMetadata _ rid _ | CallReadChunkDone _ rid _
  | CallReadChunkError _ rid | CallOpenFile _ rid _ _ | CallCloseFile _ rid _
  | CallReadFile _ rid _ _ _ => rid
  | CallCloseVolume _ => JsNumber (-1)
  end.

(** The mandatory part of an envelope, as [createBasic_] leaves it. *)
Definition basic (operation fileSystemId : JsValue) (requestId : string)
    : gmap string JsValue :=
  <[Key.REQUEST_ID := JsString requestId]>
    (<[Key.FILE_SYSTEM_ID := fileSystemId]> (<[Key.OPERATION := operation]> ∅)).

(** ** The wire format of the protocol description *)

(** Section 6, "Per-operation optional keys": the additional keys of each
    operation.  The table has no row for close-volume, which carries the
    mandatory keys only. *)
Definition section6_keys (o : Operation.t) : list string :=
  match o with
  | Operation.READ_METADATA => [Key.ARCHIVE_SIZE]
  | Operation.READ_METADATA_DONE => [Key.METADATA]
  | Operation.READ_CHUNK => [Key.OFFSET; Key.LENGTH]
  | Operation.READ_CHUNK_DONE => [Key.CHUNK_BUFFER]
  | Operation.READ_CHUNK_ERROR => []
  | Operation.CLOSE_VOLUME => []
  | Operation.OPEN_FILE => [Key.FILE_PATH; Key.ARCHIVE_SIZE]
  | Operation.OPEN_FILE_DONE => []
  | Operation.CLOSE_FILE => [Key.OPEN_REQUEST_ID]
  | Operation.CLOSE_FILE_DONE => []
  | Operation.READ_FILE => [Key.OPEN_REQUEST_ID; Key.OFFSET; Key.LENGTH]
  | Operation.READ_FILE_DONE => [Key.READ_FILE_DATA; Key.HAS_MORE_DATA]
  | Operation.FILE_SYSTEM_ERROR => [Key.ERROR]
  end.

(** Section 3, Operation: the kinds of request and response by name. *)
Definition section3_kinds : list string :=
  ["read-metadata"; "read-metadata-done"; "read-chunk"; "read-chunk-done";
   "read-chunk-error"; "close-volume"; "open-file"; "open-file-done";
   "close-file"; "close-file-done"; "read-file"; "read-file-done";
   "file-system-error"].

(** Reading a decimal string back: an optional minus sign, then digits. *)
Definition parse_decimal (s : string) : option Z :=
  option_map Z.of_int (NilZero.int_of_string s).

(** The name of a member as the protocol description writes it: lower case,
    with hyphens. *)
Definition kebab_char (c : ascii) : ascii :=
  if Ascii.eqb c "_" then "-"%char
  else
    let n := nat_of_ascii c in
    if ((65 <=? n) && (n <=? 90))%nat then ascii_of_nat (n + 32) else c.

Fixpoint kebab (s : string) : string :=
  match s with
  | EmptyString => EmptyString
  | String c s' => String (kebab_char c) (kebab s')
  end.

(** ** Documented argument types *)

Definition is_string (v : JsValue) : bool :=
  match v with JsString _ => true | _ => false end.

Definition is_number (v : JsValue) : bool :=
  match v with JsNumber _ => true | _ => false end.

Definition is_array_buffer (v : JsValue) : bool :=
  match v with JsArrayBuffer _ => true | _ => false end.

(** The argument types of the JSDoc comments.  The archive size of
    createOpenFileRequest is documented as a string where
    createReadMetadataRequest documents a number; both are taken. *)
Definition documented (c : Call) : bool :=
  match c with
  | CallReadMetadata fs rid size =>
      is_string fs && is_number rid && is_number size
  | CallReadChunkDone fs rid buf =>
      is_string fs && is_number rid && is_array_buffer buf
  | CallReadChunkError fs rid => is_string fs && is_number rid
  | CallCloseVolume fs => is_string fs
  | CallOpenFile fs rid path size =>
      is_string fs && is_number rid && is_string path &&
      (is_string size || is_number size)
  | CallCloseFile fs rid orid =>
      is_string fs && is_number rid && is_number orid
  | CallReadFile fs rid orid off len =>
      is_string fs && is_number rid && is_number orid && is_number off &&
      is_number len
  end.

(** ** The codec: typed messages, encoding and decoding *)

(** Modelled from the spec: the typed operation values of section 4.1, which
    request.js does not declare (its constructors take the fields as
    arguments).  One constructor per operation, with the fields of the
    section 6 table: sizes, offsets and ids as integers, length as a number,
    buffers as bytes. *)
Inductive Message : Type :=
  | ReadMetadata (fs : string) (rid archive_size : Z)
  | ReadMetadataDone (fs : string) (rid : Z) (metadata : list (string * JsValue))
  | ReadChunk (fs : string) (rid offset length : Z)
  | ReadChunkDone (fs : string) (rid : Z) (chunk_buffer : list Byte.byte)
  | ReadChunkError (fs : string) (rid : Z)
  | CloseVolume (fs : string)
  | OpenFile (fs : string) (rid : Z) (file_path : string) (archive_size : Z)
  | OpenFileDone (fs : string) (rid : Z)
  | CloseFile (fs : string) (rid open_request_id : Z)
  | CloseFileDone (fs : string) (rid : Z)
  | ReadFile (fs : string) (rid open_request_id offset length : Z)
  | ReadFileDone (fs : string) (rid : Z) (read_file_data : list Byte.byte)
      (has_more_data : bool)
  | FileSystemError (fs : string) (rid : Z) (error : string).

Definition message_operation (m : Message) : Operation.t :=
  match m with
  | ReadMetadata _ _ _ => Operation.READ_METADATA
  | ReadMetadataDone _ _ _ => Operation.READ_METADATA_DONE
  | ReadChunk _ _ _ _ => Operation.READ_CHUNK
  | ReadChunkDone _ _ _ => Operation.READ_CHUNK_DONE
  | ReadChunkError _ _ => Operation.READ_CHUNK_ERROR
  | CloseVolume _ => Operation.CLOSE_VOLUME
  | OpenFile _ _ _ _ => Operation.OPEN_FILE
  | OpenFileDone _ _ => Operation.OPEN_FILE_DONE
  | CloseFile _ _ _ => Operation.CLOSE_FILE
  | CloseFileDone _ _ => Operation.CLOSE_FILE_DONE
  | ReadFile _ _ _ _ _ => Operation.READ_FILE
  | ReadFileDone _ _ _ _ => Operation.READ_FILE_DONE
  | FileSystemError _ _ _ => Operation.FILE_SYSTEM_ERROR
  end.

(** Modelled from the spec: the encoders of the six operations that the
    engine sends (read-metadata-done, read-chunk, open-file-done,
    close-file-done, read-file-done, file-system-error); request.js builds
    none of them.  Each stores the mandatory keys as [createBasic_] does and
    then the keys of its row of the section 6 table, decimal strings for
    offsets and native values for lengths, flags, buffers and records. *)
Definition encode_engine (m : Message) : Js Ref :=
  match m with
  | ReadMetadataDone fs rid metadata =>
      r ← createBasic_ (op_value Operation.READ_METADATA_DONE) (JsString fs)
            (JsNumber rid);
      set_prop r Key.METADATA (JsDictionary metadata);;
      mret r
  | ReadChunk fs rid offset len =>
      r ← createBasic_ (op_value Operation.READ_CHUNK) (JsString fs)
            (JsNumber rid);
      s ← call_toString (JsNumber offset);
      set_prop r Key.OFFSET (JsString s);;
      set_prop r Key.LENGTH (JsNumber len);;
      mret r
  | OpenFileDone fs rid =>
      createBasic_ (op_value Operation.OPEN_FILE_DONE) (JsString fs)
        (JsNumber rid)
  | CloseFileDone fs rid =>
      createBasic_ (op_value Operation.CLOSE_FILE_DONE) (JsString fs)
        (JsNumber rid)
  | ReadFileDone fs rid data more =>
      r ← createBasic_ (op_value Operation.READ_FILE_DONE) (JsString fs)
            (JsNumber rid);
      set_prop r Key.READ_FILE_DATA (JsArrayBuffer data);;
      set_prop r Key.HAS_MORE_DATA (JsBoolean more);;
      mret r
  | FileSystemError fs rid error =>
      r ← createBasic_ (op_value Operation.FILE_SYSTEM_ERROR) (JsString fs)
            (JsNumber rid);
      set_prop r Key.ERROR (JsString error);;
      mret r
  | _ => throw TypeError
  end.

(** Encoding: the constructors of request.js for the seven operations the
    front end sends, [encode_engine] for the others. *)
Definition encode (m : Message) : Js Ref :=
  match m with
  | ReadMetadata fs rid size =>
      createReadMetadataRequest (JsString fs) (JsNumber rid) (JsNumber size)
  | ReadChunkDone fs rid buffer =>
      createReadChunkDoneResponse (JsString fs) (JsNumber rid)
        (JsArrayBuffer buffer)
  | ReadChunkError fs rid =>
      createReadChunkErrorResponse (JsString fs) (JsNumber rid)
  | CloseVolume fs => createCloseVolumeRequest (JsString fs)
  | OpenFile fs rid path size =>
      createOpenFileRequest (JsString fs) (JsNumber rid) (JsString path)
        (JsNumber size)
  | CloseFile fs rid orid =>
      createCloseFileRequest (JsString fs) (JsNumber rid) (JsNumber orid)
  | ReadFile fs rid orid offset len =>
      createReadFileRequest (JsString fs) (JsNumber rid) (JsNumber orid)
        (JsNumber offset) (JsNumber len)
  | _ => encode_engine m
  end.

(** Modelled from the spec: the two decode errors of section 4.1. *)
Inductive DecodeError : Type :=
  | MalformedMessage
  | UnknownOperation.

(** Modelled from the spec: reading a key of an envelope at one of the
    shapes of section 6 (string, decimal string, native number, boolean,
    byte buffer, structured record); request.js has no decoder. *)
Section Getters.
Variable env : gmap string JsValue.

Definition get_string (k : string) : option string :=
  match env !! k with Some (JsString s) => Some s | _ => None end.

Definition get_decimal (k : string) : option Z :=
  match env !! k with Some (JsString s) => parse_decimal s | _ => None end.

Definition get_number (k : string) : option Z :=
  match env !! k with Some (JsNumber z) => Some z | _ => None end.

Definition get_boolean (k : string) : option bool :=
  match env !! k with Some (JsBoolean b) => Some b | _ => None end.

Definition get_buffer (k : string) : option (list Byte.byte) :=
  match env !! k with Some (JsArrayBuffer b) => Some b | _ => None end.

Definition get_record (k : string) : option (list (string * JsValue)) :=
  match env !! k with Some (JsDictionary d) => Some d | _ => None end.

(** Modelled from the spec: the typed fields of an envelope declared to be
    of operation [o] (section 6 table); none if a key that [o] requires is
    absent or of the wrong shape.  request.js has no decoder. *)
Definition decode_fields (o : Operation.t) : option Message :=
  fs ← get_string Key.FILE_SYSTEM_ID;
  rid ← get_decimal Key.REQUEST_ID;
  match o with
  | Operation.READ_METADATA =>
      size ← get_decimal Key.ARCHIVE_SIZE; Some (ReadMetadata fs rid size)
  | Operation.READ_METADATA_DONE =>
      md ← get_record Key.METADATA; Some (ReadMetadataDone fs rid md)
  | Operation.READ_CHUNK =>
      offset ← get_decimal Key.OFFSET;
      len ← get_number Key.LENGTH;
      Some (ReadChunk fs rid offset len)
  | Operation.READ_CHUNK_DONE =>
      buffer ← get_buffer Key.CHUNK_BUFFER; Some (ReadChunkDone fs rid buffer)
  | Operation.READ_CHUNK_ERROR => Some (ReadChunkError fs rid)
  | Operation.CLOSE_VOLUME => Some (CloseVolume fs)
  | Operation.OPEN_FILE =>
      path ← get_string Key.FILE_PATH;
      size ← get_decimal Key.ARCHIVE_SIZE;
      Some (OpenFile fs rid path size)
  | Operation.OPEN_FILE_DONE => Some (OpenFileDone fs rid)
  | Operation.CLOSE_FILE =>
      orid ← get_decimal Key.OPEN_REQUEST_ID; Some (CloseFile fs rid orid)
  | Operation.CLOSE_FILE_DONE => Some (CloseFileDone fs rid)
  | Operation.READ_FILE =>
      orid ← get_decimal Key.OPEN_REQUEST_ID;
      offset ← get_decimal Key.OFFSET;
      len ← get_number Key.LENGTH;
      Some (ReadFile fs rid orid offset len)
  | Operation.READ_FILE_DONE =>
      data ← get_buffer Key.READ_FILE_DATA;
      more ← get_boolean Key.HAS_MORE_DATA;
      Some (ReadFileDone fs rid data more)
  | Operation.FILE_SYSTEM_ERROR =>
      error ← get_string Key.ERROR; Some (FileSystemError fs rid error)
  end.

(** Modelled from the spec: the decoder of section 4.1, which request.js
    does not have (the receiving side is not JavaScript).  An absent or
    ill-shaped mandatory key is a MalformedMessage, an operation value
    outside the enumeration an UnknownOperation. *)
Definition decode : DecodeError + Message :=
  match env !! Key.OPERATION with
  | Some (JsNumber z) =>
      match Operation.of_code z with
      | Some o =>
          match decode_fields o with
          | Some m => inr m
          | None => inl MalformedMessage
          end
      | None => inl UnknownOperation
      end
  | _ => inl MalformedMessage
  end.
End Getters.

(** ** The session behind the codec *)

(** request.js builds messages and holds no session; the volume session,
    its file handles and the gate on chunk pulls are described in sections 3
    and 4.3 to 4.6 of the protocol description only. *)

(** Modelled from the spec: the states of a volume session (section 4.4),
    which request.js does not have. *)
Inductive SessionState : Type :=
  | AwaitingMetadata
  | Ready
  | Closed.

#[global] Instance SessionState_eq_dec : EqDecision SessionState.
Proof. solve_decision. Defined.

(** Modelled from the spec: the states of a file handle (section 4.5), which
    request.js does not have.  A handle that reaches [HandleClosed] is
    removed from the table at once. *)
Inductive HandleState : Type :=
  | Opening
  | Open
  | Closing
  | HandleClosed.

(** Modelled from the spec: the FileHandle of section 3, which request.js
    does not have. *)
Record FileHandle : Type := mkHandle {
  openRequestId : Z;
  path : string;
  handleState : HandleState
}.

(** Modelled from the spec: the VolumeSession of section 3, which request.js
    does not have.  [sessionState] stands for metadataLoaded (it is [Ready]
    exactly when the metadata is loaded) and for the closing of section 4.4;
    [pendingRequests] holds the session's entries of the correlation
    registry, each request under its id. *)
Record VolumeSession : Type := mkSession {
  fileSystemId : string;
  archiveSize : Z;
  sessionState : SessionState;
  openHandles : gmap Z FileHandle;
  pendingChunkRequest : option Z;
  pendingRequests : gmap Z Message
}.

(** Modelled from the spec: the error taxonomy of section 7, which
    request.js does not have; MalformedMessage and UnknownOperation are the
    two errors of the decoder. *)
Inductive Failure : Type :=
  | Codec (e : DecodeError)
  | ProtocolViolation
  | InvalidSession
  | InvalidHandle
  | SourceReadError
  | OutOfRange.

(** Modelled from the spec: how the delivery of a message ends, accepted or
    failed with an error of section 7; request.js has no receiving side. *)
Inductive Outcome : Type :=
  | Accepted
  | Failed (e : Failure).

(** The session a message is addressed to. *)
Definition message_fs (m : Message) : string :=
  match m with
  | ReadMetadata fs _ _ | ReadMetadataDone fs _ _ | ReadChunk fs _ _ _
  | ReadChunkDone fs _ _ | ReadChunkError fs _ | CloseVolume fs
  | OpenFile fs _ _ _ | OpenFileDone fs _ | CloseFile fs _ _
  | CloseFileDone fs _ | ReadFile fs _ _ _ _ | ReadFileDone fs _ _ _
  | FileSystemError fs _ _ => fs
  end.

Section SessionUpdates.
Variable v : VolumeSession.

Definition with_state (st : SessionState) : VolumeSession :=
  mkSession (fileSystemId v) (archiveSize v) st (openHandles v)
    (pendingChunkRequest v) (pendingRequests v).

Definition with_handles (hs : gmap Z FileHandle) : VolumeSession :=
  mkSession (fileSystemId v) (archiveSize v) (sessionState v) hs
    (pendingChunkRequest v) (pendingRequests v).

Definition with_chunk (p : option Z) : VolumeSession :=
  mkSession (fileSystemId v) (archiveSize v) (sessionState v)
    (openHandles v) p (pendingRequests v).

Definition with_requests (ps : gmap Z Message) : VolumeSession :=
  mkSession (fileSystemId v) (archiveSize v) (sessionState v)
    (openHandles v) (pendingChunkRequest v) ps.

(** close-volume: every handle released, every pending request and the
    pending pull cancelled, the session closed. *)
Definition closed : VolumeSession :=
  mkSession (fileSystemId v) (archiveSize v) Closed ∅ None ∅.
End SessionUpdates.

(** Modelled from the spec: the correlation registry's register (section
    4.3), which request.js does not have.  A request of the front end is
    recorded under its id until it is answered; an id that is still pending
    is refused (invariant 3.a). *)
Definition register (rid : Z) (m : Message) (v : VolumeSession)
    : VolumeSession * Outcome :=
  match pendingRequests v !! rid with
  | Some _ => (v, Failed ProtocolViolation)
  | None => (with_requests v (<[rid := m]> (pendingRequests v)), Accepted)
  end.

Definition handle_state_of (v : VolumeSession) (orid : Z) : option HandleState :=
  handleState <$> openHandles v !! orid.

Definition set_handle_state (orid : Z) (st : HandleState) (v : VolumeSession)
    : VolumeSession :=
  with_handles v
    (alter (fun f => mkHandle (openRequestId f) (path f) st) orid (openHandles v)).

(** Modelled from the spec: what an answer of the engine does to the
    session, given the request it answers (sections 4.4 and 4.5); request.js
    has no receiving side.  read-metadata-done makes the session ready, an
    error on read-metadata discards it, open-file-done opens the handle, an
    error on open-file removes it, close-file-done removes the handle. *)
Definition resolve (request answer : Message) (v : VolumeSession)
    : option VolumeSession :=
  match request, answer with
  | ReadMetadata _ _ _, ReadMetadataDone _ _ _ => Some (with_state v Ready)
  | ReadMetadata _ _ _, FileSystemError _ _ _ => Some (closed v)
  | OpenFile _ rid _ _, OpenFileDone _ _ => Some (set_handle_state rid Open v)
  | OpenFile _ rid _ _, FileSystemError _ _ _ =>
      Some (with_handles v (delete rid (openHandles v)))
  | CloseFile _ _ orid, CloseFileDone _ _ =>
      Some (with_handles v (delete orid (openHandles v)))
  | CloseFile _ _ _, FileSystemError _ _ _ => Some v
  | ReadFile _ _ _ _ _, ReadFileDone _ _ _ _ => Some v
  | ReadFile _ _ _ _ _, FileSystemError _ _ _ => Some v
  | _, _ => None
  end.

(** Modelled from the spec: the correlation registry's resolve and fail
    (section 4.3), which request.js does not have.  The answer is matched
    with the pending request of its id, which is then removed; an answer to
    no pending request is a ProtocolViolation. *)
Definition answer (rid : Z) (m : Message) (v : VolumeSession)
    : VolumeSession * Outcome :=
  match pendingRequests v !! rid with
  | Some request =>
      match resolve request m v with
      | Some v' =>
          (with_requests v' (delete rid (pendingRequests v')), Accepted)
      | None => (v, Failed ProtocolViolation)
      end
  | None => (v, Failed ProtocolViolation)
  end.

(** Modelled from the spec: one message delivered to a session that exists
    and is not closed (sections 4.4 to 4.6); request.js has no session.
    File requests need an open handle (InvalidHandle otherwise) and, to be
    accepted, a byte range within the archive (OutOfRange otherwise); a pull
    is refused while another is pending (ProtocolViolation), and is held to
    the same byte range. *)
Definition step (m : Message) (v : VolumeSession) : VolumeSession * Outcome :=
  match m with
  | ReadMetadata _ rid _ => register rid m v
  | CloseVolume _ => (closed v, Accepted)
  | OpenFile _ rid file_path _ =>
      match sessionState v with
      | Ready =>
          match register rid m v with
          | (v', Accepted) =>
              (with_handles v'
                 (<[rid := mkHandle rid file_path Opening]> (openHandles v')),
               Accepted)
          | refused => refused
          end
      | _ => (v, Failed ProtocolViolation)
      end
  | CloseFile _ rid orid =>
      match handle_state_of v orid with
      | Some Open =>
          match register rid m v with
          | (v', Accepted) => (set_handle_state orid Closing v', Accepted)
          | refused => refused
          end
      | _ => (v, Failed InvalidHandle)
      end
  | ReadFile _ rid orid offset len =>
      match handle_state_of v orid with
      | Some Open =>
          if (archiveSize v <? offset + len)%Z then (v, Failed OutOfRange)
          else register rid m v
      | _ => (v, Failed InvalidHandle)
      end
  | ReadChunk _ rid offset len =>
      match pendingChunkRequest v with
      | Some _ => (v, Failed ProtocolViolation)
      | None =>
          if (archiveSize v <? offset + len)%Z then (v, Failed OutOfRange)
          else (with_chunk v (Some rid), Accepted)
      end
  | ReadChunkDone _ rid _ | ReadChunkError _ rid =>
      match pendingChunkRequest v with
      | Some p =>
          if Z.eqb p rid then (with_chunk v None, Accepted)
          else (v, Failed ProtocolViolation)
      | None => (v, Failed ProtocolViolation)
      end
  | ReadMetadataDone _ rid _ | OpenFileDone _ rid | CloseFileDone _ rid
  | ReadFileDone _ rid _ _ | FileSystemError _ rid _ => answer rid m v
  end.

(** Modelled from the spec: the sessions by file system id, and the delivery
    of a message to the one it names.  The first read-metadata creates the
    session with the archive size it carries; a closed session answers
    InvalidSession to everything but a repeated close-volume. *)
Definition deliver (m : Message) (sessions : gmap string VolumeSession)
    : gmap string VolumeSession * Outcome :=
  match sessions !! message_fs m with
  | None =>
      match m with
      | ReadMetadata fs rid size =>
          (<[fs := mkSession fs size AwaitingMetadata ∅ None {[rid := m]}]>
             sessions, Accepted)
      | _ => (sessions, Failed InvalidSession)
      end
  | Some v =>
      match sessionState v, m with
      | Closed, CloseVolume _ => (sessions, Accepted)
      | Closed, _ => (sessions, Failed InvalidSession)
      | _, _ =>
          let (v', out) := step m v in
          (<[message_fs m := v']> sessions, out)
      end
  end.

(** Modelled from the spec: an envelope arriving from the wire is decoded
    first (section 4.1), then delivered; request.js has no receiving side. *)
Definition receive (env : gmap string JsValue)
    (sessions : gmap string VolumeSession)
    : gmap string VolumeSession * Outcome :=
  match decode env with
  | inr m => deliver m sessions
  | inl e => (sessions, Failed (Codec e))
  end.

(** Modelled from the spec: a sequence of messages, delivered in order (the
    transport of section 1 keeps the order), with the outcome of each. *)
Fixpoint deliver_all (ms : list Message) (sessions : gmap string VolumeSession)
    : gmap string VolumeSession * list Outcome :=
  match ms with
  | [] => (sessions, [])
  | m :: ms' =>
      let (sessions', out) := deliver m sessions in
      let (sessions'', outs) := deliver_all ms' sessions' in
      (sessions'', out :: outs)
  end.


(** ** The archive size and the byte ranges requested *)


(** ** The gate on chunk pulls *)

(** The pulls of session [fs] that are outstanding, kept from what was
    delivered and how it was answered: an accepted read-chunk adds its id, an
    accepted read-chunk-done or read-chunk-error removes the id it names. *)
Definition track (fs : string) (m : Message) (out : Outcome) (acc : list Z)
    : list Z :=
  match out, m with
  | Accepted, ReadChunk fs' rid _ _ =>
      if String.eqb fs' fs then rid :: acc else acc
  | Accepted, ReadChunkDone fs' rid _ | Accepted, ReadChunkError fs' rid =>
      if String.eqb fs' fs then List.filter (fun p => negb (Z.eqb p rid)) acc
      else acc
  | _, _ => acc
  end.

Fixpoint outstanding (fs : string) (ms : list Message)
    (sessions : gmap string VolumeSession) (acc : list Z) : list Z :=
  match ms with
  | [] => acc
  | m :: ms' =>
      let (sessions', out) := deliver m sessions in
      outstanding fs ms' sessions' (track fs m out acc)
  end.

(** The pulls tracked for a session are those its gate holds, as long as it
    is open; a closed session has at most the one it was closed with. *)
Definition gate_agrees (fs : string) (sessions : gmap string VolumeSession)
    (acc : list Z) : Prop :=
  match sessions !! fs with
  | None => acc = []
  | Some v =>
      if decide (sessionState v = Closed) then (List.length acc <= 1)%nat
      else acc = option_list (pendingChunkRequest v)
  end.

Definition is_chunk_message (m : Message) : bool :=
  match m with
  | ReadChunk _ _ _ _ | ReadChunkDone _ _ _ | ReadChunkError _ _ => true
  | _ => false
  end.

(** ** Example data *)

Definition read_file_example : Call :=
  CallReadFile (JsString "a") (JsNumber 4) (JsNumber 3) (JsNumber 0)
    (JsNumber 100).

Definition read_file_example_envelope : gmap string JsValue :=
  <[Key.LENGTH := JsNumber 100]>
    (<[Key.OFFSET := JsString "0"]>
       (<[Key.OPEN_REQUEST_ID := JsString "3"]>
          (basic (JsNumber 10) (JsString "a") "4"))).

Definition out_of_range_example : Call :=
  CallReadFile (JsString "a") (JsNumber 4) (JsNumber 3) (JsNumber 900)
    (JsNumber 200).

Definition metadata_example : Call :=
  CallReadMetadata (JsString "a") (JsNumber 1) (JsNumber 1000).

Definition metadata_example_envelope : gmap string JsValue :=
  <[Key.ARCHIVE_SIZE := JsString "1000"]> (basic (JsNumber 0) (JsString "a") "1").

Definition out_of_range_envelope : gmap string JsValue :=
  <[Key.LENGTH := JsNumber 200]>
    (<[Key.OFFSET := JsString "900"]>
       (<[Key.OPEN_REQUEST_ID := JsString "3"]>
          (basic (JsNumber 10) (JsString "a") "4"))).

(** Session "a" of 1000 bytes, its metadata loaded and file 3 open. *)
Definition session_a : VolumeSession :=
  mkSession "a" 1000 Ready {[3 := mkHandle 3 "/x.txt" Open]} None ∅.

Definition sessions_a : gmap string VolumeSession := {["a" := session_a]}.

(** Session "a" while the engine's pull 2 is outstanding. *)
Definition sessions_a_pulling : gmap string VolumeSession :=
  {["a" := with_chunk session_a (Some 2)]}.

(** ** Arguments converted and arguments passed through *)



(** The values a constructor calls [toString] on, in the order of the calls:
    the request id first (inside [createBasic_]; the constant -1 for
    close-volume), then those of its own body. *)
Definition converted (c : Call) : list JsValue :=
  match c with
  | CallReadMetadata _ rid size => [rid; size]
  | CallReadChunkDone _ rid _ => [rid]
  | CallReadChunkError _ rid => [rid]
  | CallCloseVolume _ => [JsNumber (-1)]
  | CallOpenFile _ rid _ size => [rid; size]
  | CallCloseFile _ rid orid => [rid; orid]
  | CallReadFile _ rid orid off _ => [rid; orid; off]
  end.

(** The arguments a constructor assigns as they are, each with its key. *)
Definition passed_through (c : Call) : list (string * JsValue) :=
  match c with
  | CallReadMetadata fs _ _ => [(Key.FILE_SYSTEM_ID, fs)]
  | CallReadChunkDone fs _ buf =>
      [(Key.FILE_SYSTEM_ID, fs); (Key.CHUNK_BUFFER, buf)]
  | CallReadChunkError fs _ => [(Key.FILE_SYSTEM_ID, fs)]
  | CallCloseVolume fs => [(Key.FILE_SYSTEM_ID, fs)]
  | CallOpenFile fs _ path _ => [(Key.FILE_SYSTEM_ID, fs); (Key.FILE_PATH, path)]
  | CallCloseFile fs _ _ => [(Key.FILE_SYSTEM_ID, fs)]
  | CallReadFile fs _ _ _ len => [(Key.FILE_SYSTEM_ID, fs); (Key.LENGTH, len)]
  end.

(** The same call with [f] applied to the arguments it converts. *)
Definition map_converted (f : JsValue -> JsValue) (c : Call) : Call :=
  match c with
  | CallReadMetadata fs rid size => CallReadMetadata fs (f rid) (f size)
  | CallReadChunkDone fs rid buf => CallReadChunkDone fs (f rid) buf
  | CallReadChunkError fs rid => CallReadChunkError fs (f rid)
  | CallCloseVolume fs => CallCloseVolume fs
  | CallOpenFile fs rid path size => CallOpenFile fs (f rid) path (f size)
  | CallCloseFile fs rid orid => CallCloseFile fs (f rid) (f orid)
  | CallReadFile fs rid orid off len => CallReadFile fs (f rid) (f orid) (f off) len
  end.

(** A number replaced by the string [toString] gives for it. *)
Definition rendered (v : JsValue) : JsValue :=
  match v with
  | JsNumber z => JsString (number_toString z)
  | _ => v
  end.

(** Every number among the arguments the call converts is a safe integer. *)
Definition safe_converted (c : Call) : bool :=
  forallb
    (fun v => match v with JsNumber z => is_safe_integer z | _ => true end)
    (converted c).

(** An object whose own property toString is no function. *)
Definition masked_toString_example : Call :=
  CallReadChunkError (JsString "a") (JsDictionary [("toString", JsNumber 1)]).

(** A missing buffer: the response is built with [undefined] for it. *)
Definition missing_buffer_example : Call :=
  CallReadChunkDone (JsString "a") (JsNumber 2) JsUndefined.

Definition missing_buffer_envelope : gmap string JsValue :=
  <[Key.CHUNK_BUFFER := JsUndefined]> (basic (JsNumber 3) (JsString "a") "2").

(** Every argument the call converts is a number. *)
Definition numeric_ids (c : Call) : bool := forallb is_number (converted c).

(** The value under a key, whatever its shape. *)
Definition get_value (env : gmap string JsValue) (k : string) : option JsValue :=
  env !! k.

(** The call an envelope comes from, read back from its fields: the
    operation tells the constructor, the fields passed through are taken as
    they are and the converted ones are read as decimal numbers. *)
Definition read_call (env : gmap string JsValue) : option Call :=
  match env !! Key.OPERATION with
  | Some (JsNumber z) =>
      o ← Operation.of_code z;
      fs ← get_value env Key.FILE_SYSTEM_ID;
      match o with
      | Operation.READ_METADATA =>
          rid ← get_decimal env Key.REQUEST_ID;
          size ← get_decimal env Key.ARCHIVE_SIZE;
          Some (CallReadMetadata fs (JsNumber rid) (JsNumber size))
      | Operation.READ_CHUNK_DONE =>
          rid ← get_decimal env Key.REQUEST_ID;
          buf ← get_value env Key.CHUNK_BUFFER;
          Some (CallReadChunkDone fs (JsNumber rid) buf)
      | Operation.READ_CHUNK_ERROR =>
          rid ← get_decimal env Key.REQUEST_ID;
          Some (CallReadChunkError fs (JsNumber rid))
      | Operation.CLOSE_VOLUME => Some (CallCloseVolume fs)
      | Operation.OPEN_FILE =>
          rid ← get_decimal env Key.REQUEST_ID;
          path ← get_value env Key.FILE_PATH;
          size ← get_decimal env Key.ARCHIVE_SIZE;
          Some (CallOpenFile fs (JsNumber rid) path (JsNumber size))
      | Operation.CLOSE_FILE =>
          rid ← get_decimal env Key.REQUEST_ID;
          orid ← get_decimal env Key.OPEN_REQUEST_ID;
          Some (CallCloseFile fs (JsNumber rid) (JsNumber orid))
      | Operation.READ_FILE =>
          rid ← get_decimal env Key.REQUEST_ID;
          orid ← get_decimal env Key.OPEN_REQUEST_ID;
          offset ← get_decimal env Key.OFFSET;
          len ← get_value env Key.LENGTH;
          Some (CallReadFile fs (JsNumber rid) (JsNumber orid)
                  (JsNumber offset) len)
      | _ => None
      end
  | _ => None
  end.

(** The answers of the engine: the messages that resolve or fail a request
    of the front end (sections 4.3 and 6). *)
Definition is_answer (m : Message) : bool :=
  match m with
  | ReadMetadataDone _ _ _ | OpenFileDone _ _ | CloseFileDone _ _
  | ReadFileDone _ _ _ _ | FileSystemError _ _ _ => true
  | _ => false
  end.

(** The integer fields of a typed message are safe integers. *)
Definition safe_message (m : Message) : bool :=
  match m with
  | ReadMetadata _ rid size => is_safe_integer rid && is_safe_integer size
  | ReadMetadataDone _ rid _ | ReadChunkDone _ rid _ | ReadChunkError _ rid
  | OpenFileDone _ rid | CloseFileDone _ rid | ReadFileDone _ rid _ _
  | FileSystemError _ rid _ => is_safe_integer rid
  | ReadChunk _ rid offset len =>
      is_safe_integer rid && is_safe_integer offset && is_safe_integer len
  | CloseVolume _ => true
  | OpenFile _ rid _ size => is_safe_integer rid && is_safe_integer size
  | CloseFile _ rid orid => is_safe_integer rid && is_safe_integer orid
  | ReadFile _ rid orid offset len =>
      is_safe_integer rid && is_safe_integer orid && is_safe_integer offset &&
      is_safe_integer len
  end.

(** A decimal digit. *)
Definition is_digit (c : ascii) : bool :=
  let n := nat_of_ascii c in ((48 <=? n) && (n <=? 57))%nat.

Fixpoint all_digits (s : string) : bool :=
  match s with
  | EmptyString => true
  | String c s' => is_digit c && all_digits s'
  end.

(** The decimal string of a natural number: digits, at least one, and no
    leading zero except in "0" itself. *)
Definition natural_decimal (s : string) : bool :=
  match s with
  | EmptyString => false
  | String c s' => all_digits s && (negb (Ascii.eqb c "0") || String.eqb s' "")
  end.

(** The decimal string of an integer: that of a natural number, or a minus
    sign before that of a natural number other than zero. *)
Definition canonical_decimal (s : string) : bool :=
  match s with
  | String c s' =>
      if Ascii.eqb c "-" then natural_decimal s' && negb (String.eqb s' "0")
      else natural_decimal s
  | EmptyString => false
  end.

(** A request whose id is the Number NaN. *)
Definition nan_example : Call :=
  CallReadMetadata (JsString "a") JsNaN (JsNumber 1000).

Definition nan_example_envelope : gmap string JsValue :=
  <[Key.ARCHIVE_SIZE := JsString "1000"]>
    (basic (JsNumber 0) (JsString "a") "NaN").

(** A read at the offset Infinity. *)
Definition infinity_example : Call :=
  CallReadFile (JsString "a") (JsNumber 4) (JsNumber 3) (JsInfinity false)
    (JsNumber 100).

Definition infinity_example_envelope : gmap string JsValue :=
  <[Key.LENGTH := JsNumber 100]>
    (<[Key.OFFSET := JsString "Infinity"]>
       (<[Key.OPEN_REQUEST_ID := JsString "3"]>
          (basic (JsNumber 10) (JsString "a") "4"))).

(** * Properties *)

(** ** Running the constructors *)

Example createCloseVolumeRequest_a :
  createCloseVolumeRequest (JsString "a") [] =
  (Normal 0%nat,
   [<[Key.REQUEST_ID := JsString "-1"]>
      (<[Key.FILE_SYSTEM_ID := JsString "a"]>
         (<[Key.OPERATION := JsNumber 5]> ∅))]).
Proof. reflexivity. Qed.

Section Run.
Context {A : Type}.
Implicit Types (h : Heap) (k : string) (v : JsValue).

Lemma bind_new_object (f : Ref -> Js A) h :
  (new_object ≫= f) h = f (List.length h) (h ++ [∅])%list.
Proof. reflexivity. Qed.

Lemma bind_set_prop_last (f : unit -> Js A) h (o : gmap string JsValue) k v :
  (set_prop (List.length h) k v ≫= f) (h ++ [o])%list =
  f tt (h ++ [<[k := v]> o])%list.
Proof.
  unfold mbind, Js_bind, bind, set_prop.
  rewrite alter_app_r_alt by lia.
  by rewrite Nat.sub_diag.
Qed.

Lemma bind_call_toString (f : string -> Js A) h v :
  (call_toString v ≫= f) h =
  match toString v with
  | Normal s => f s h
  | Throw e => (Throw e, h)
  end.
Proof.
  unfold mbind, Js_bind, bind, call_toString. by destruct (toString v).
Qed.

Lemma bind_assoc {B C} (m : Js B) (f : B -> Js C) (g : C -> Js A) h :
  ((m ≫= f) ≫= g) h = (m ≫= (fun x => f x ≫= g)) h.
Proof.
  unfold mbind, Js_bind, bind. by destruct (m h) as [[b|e] h'].
Qed.

Lemma bind_mret {B} (b : B) (f : B -> Js A) h : (mret b ≫= f) h = f b h.
Proof. reflexivity. Qed.

Lemma run_mret (a : A) h : (mret a : Js A) h = (Normal a, h).
Proof. reflexivity. Qed.
End Run.

Ltac js_step :=
  first
    [ rewrite bind_assoc
    | rewrite bind_new_object
    | rewrite bind_set_prop_last
    | rewrite bind_call_toString
    | rewrite bind_mret
    | rewrite run_mret ];
  cbv beta.

Ltac js_unfold :=
  unfold run, createReadMetadataRequest, createReadChunkDoneResponse,
    createReadChunkErrorResponse, createCloseVolumeRequest,
    createOpenFileRequest, createCloseFileRequest, createReadFileRequest,
    createBasic_.

Lemma createBasic__run operation fileSystemId requestId (h : Heap) :
  createBasic_ operation fileSystemId requestId h =
  match toString requestId with
  | Normal s =>
      (Normal (List.length h), (h ++ [basic operation fileSystemId s])%list)
  | Throw e =>
      (Throw e,
       (h ++ [<[Key.FILE_SYSTEM_ID := fileSystemId]>
                (<[Key.OPERATION := operation]> ∅)])%list)
  end.
Proof.
  unfold createBasic_. repeat js_step.
  destruct (toString requestId); [by repeat js_step | done].
Qed.

(** A call allocates exactly one object behind the store it is given, leaves
    every older object as it was, and fills the new object in the same way
    whatever the store holds. *)
Lemma run_local (c : Call) (h : Heap) :
  ∃ o : gmap string JsValue,
    (run c []).2 = [o] ∧
    run c h =
      (match (run c []).1 with
       | Normal _ => Normal (List.length h)
       | Throw e => Throw e
       end, (h ++ [o])%list).
Proof.
  destruct c; js_unfold; repeat js_step;
    repeat (match goal with
            | |- context [toString ?v] => destruct (toString v)
            end; repeat js_step);
    eexists; split; reflexivity.
Qed.

Lemma returned_last (r : Ref) (h : Heap) (o env : gmap string JsValue) :
  r = List.length h ->
  returned (Normal r, (h ++ [o])%list) = Some env -> o = env.
Proof.
  intros -> H. simpl in H. rewrite list_lookup_middle in H by done. congruence.
Qed.

Lemma returned_last_eq (h : Heap) (o : gmap string JsValue) :
  returned (Normal (List.length h), (h ++ [o])%list) = Some o.
Proof. simpl. by rewrite list_lookup_middle. Qed.

(** Runs the call in the goal down to its outcome, one case per way its
    [toString] calls can end. *)
Ltac js_run :=
  js_unfold; repeat js_step;
  repeat (match goal with
          | |- context [toString ?v] =>
              let s := fresh "s" in
              let E := fresh "E" in
              destruct (toString v) as [s|?] eqn:E
          end; repeat js_step).

(** Runs a call whose converted arguments are numbers or strings, so that no
    [toString] throws. *)
Ltac js_eval := js_unfold; repeat (repeat js_step; cbn [toString]).

(** Equality of two closed sets of keys, by evaluation. *)
Ltac gset_decide := apply (bool_decide_unpack _); vm_compute; exact I.

(** On arguments of the documented types a call returns the object it has
    just made. *)
Lemma run_documented (c : Call) (h : Heap) :
  documented c = true ->
  ∃ env : gmap string JsValue,
    run c h = (Normal (List.length h), (h ++ [env])%list).
Proof.
  intros Hc.
  destruct c; simpl in Hc;
    repeat match goal with
           | H : _ && _ = true |- _ => apply andb_prop in H as [? ?]
           | H : _ || _ = true |- _ => apply orb_prop in H as [?|?]
           | H : is_number ?v = true |- _ => destruct v; try discriminate H; clear H
           | H : is_string ?v = true |- _ => destruct v; try discriminate H; clear H
           | H : is_array_buffer ?v = true |- _ => destruct v; try discriminate H; clear H
           end;
    js_eval; eexists; reflexivity.
Qed.

(** A call that returns hands back the last object of the store it leaves. *)
Lemma run_returns (c : Call) (h h' : Heap) (r : Ref) :
  run c h = (Normal r, h') ->
  ∃ env : gmap string JsValue,
    r = List.length h ∧ h' = (h ++ [env])%list ∧ h' !! r = Some env ∧
    returned (run c h) = Some env.
Proof.
  intros H. rewrite H. simpl.
  destruct (run_local c h) as (o & _ & Hrun). rewrite Hrun in H.
  destruct (run c []).1; [|discriminate H].
  injection H as <- <-. exists o.
  by rewrite list_lookup_middle.
Qed.

Lemma metadata_example_run :
  run metadata_example [] = (Normal 0%nat, [metadata_example_envelope]).
Proof. reflexivity. Qed.

(** ** Envelope keys *)

Lemma keys_of_returned (c : Call) (h : Heap) (env : gmap string JsValue) :
  returned (run c h) = Some env ->
  dom env =
    list_to_set (Key.mandatory ++ section6_keys (call_operation c))%list.
Proof.
  destruct c; js_run; intros H; try discriminate H;
    apply returned_last in H; try done; subst env;
    unfold basic; rewrite !dom_insert_L, dom_empty_L; gset_decide.
Qed.

(** C1: for each of the seven constructors, all arguments and every store, a
    call that returns leaves an envelope under the reference it returns, and
    the keys of that envelope are exactly the three mandatory keys together
    with the additional keys that the section 6 table lists for its
    operation; on arguments of the documented types the call does return,
    with such an envelope. *)
Theorem envelope_keys :
  (∀ (c : Call) (h h' : Heap) (r : Ref),
     run c h = (Normal r, h') ->
     ∃ env : gmap string JsValue,
       h' !! r = Some env ∧
       dom env =
         list_to_set (Key.mandatory ++ section6_keys (call_operation c))%list) ∧
  (∀ (c : Call) (h : Heap),
     documented c = true ->
     ∃ (r : Ref) (h' : Heap) (env : gmap string JsValue),
       run c h = (Normal r, h') ∧
       h' !! r = Some env ∧
       dom env =
         list_to_set (Key.mandatory ++ section6_keys (call_operation c))%list).
Proof.
  split.
  - intros c h h' r H.
    destruct (run_returns c h h' r H) as (env & _ & _ & Henv & Hret).
    exists env. split; [done|]. by eapply keys_of_returned.
  - intros c h Hc.
    destruct (run_documented c h Hc) as (env & Hrun).
    exists (List.length h), (h ++ [env])%list, env.
    split; [done|]. split; [by rewrite list_lookup_middle|].
    eapply keys_of_returned. rewrite Hrun. apply returned_last_eq.
Qed.

Lemma read_file_example_returned :
  returned (run read_file_example []) = Some read_file_example_envelope.
Proof. reflexivity. Qed.

Lemma envelope_keys_witness :
  ∃ env : gmap string JsValue,
    [metadata_example_envelope] !! 0%nat = Some env ∧
    dom env =
      list_to_set (Key.mandatory ++ section6_keys Operation.READ_METADATA)%list.
Proof.
  exact (proj1 envelope_keys metadata_example [] [metadata_example_envelope]
           0%nat metadata_example_run).
Defined.

(** ** Numbers on the wire *)

Lemma parse_number_toString (z : Z) : parse_decimal (number_toString z) = Some z.
Proof.
  unfold parse_decimal, number_toString.
  rewrite NilZero.isi.
  - simpl. by rewrite DecimalZ.of_to.
  - destruct z; simpl; try discriminate.
    intros [= H]. by apply Unsigned.to_uint_nonnil in H.
  - destruct z; simpl; try discriminate.
    intros [= H]. by apply Unsigned.to_uint_nonnil in H.
Qed.

Lemma all_digits_string_of_uint d : all_digits (NilEmpty.string_of_uint d) = true.
Proof. induction d; simpl; auto. Qed.

Lemma to_uint_unorm p : Decimal.unorm (Pos.to_uint p) = Pos.to_uint p.
Proof.
  rewrite <- Unsigned.to_of. by rewrite Unsigned.of_to.
Qed.

Lemma to_uint_head p d : Pos.to_uint p <> Decimal.D0 d.
Proof.
  intros E. pose proof (to_uint_unorm p) as H. rewrite E in H.
  rewrite unorm_D0 in H. unfold Decimal.unorm in H.
  destruct (Decimal.nzhead d) eqn:En; try discriminate H.
  - injection H as <-. by apply (Unsigned.to_uint_nonzero p).
  - injection H as ->. by apply (nzhead_nonzero d d).
Qed.

Lemma natural_to_uint p :
  natural_decimal (NilEmpty.string_of_uint (Pos.to_uint p)) = true ∧
  NilEmpty.string_of_uint (Pos.to_uint p) <> "0".
Proof.
  pose proof (Unsigned.to_uint_nonnil p) as Hn.
  pose proof (to_uint_head p) as Hh.
  destruct (Pos.to_uint p) as [|d|d|d|d|d|d|d|d|d|d]; try done;
    try (by destruct (Hh d));
    simpl; rewrite all_digits_string_of_uint; split; try done.
Qed.

Lemma natural_canonical s : natural_decimal s = true -> canonical_decimal s = true.
Proof.
  destruct s as [|c s]; [done|]. unfold canonical_decimal.
  destruct (Ascii.eqb_spec c "-") as [->|_]; [|done].
  simpl. discriminate.
Qed.

(** What [number_toString] prints is the decimal string of the integer. *)
Lemma canonical_number_toString z : canonical_decimal (number_toString z) = true.
Proof.
  unfold number_toString. destruct z as [|p|p]; [done| |];
    destruct (natural_to_uint p) as [Hnat Hz];
    pose proof (Unsigned.to_uint_nonnil p) as Hn;
    cbn [Z.to_int NilZero.string_of_int];
    replace (NilZero.string_of_uint (Pos.to_uint p))
      with (NilEmpty.string_of_uint (Pos.to_uint p))
      by (by destruct (Pos.to_uint p)).
  - by apply natural_canonical.
  - cbn [canonical_decimal]. rewrite Hnat.
    change (Ascii.eqb "-" "-") with true. cbv iota. simpl.
    by destruct (String.eqb_spec (NilEmpty.string_of_uint (Pos.to_uint p)) "0").
Qed.

Example canonical_decimal_examples :
  map canonical_decimal
    ["0"; "-1"; "1000"; "-0"; "007"; "NaN"; "1e+21"; ""; "-"; "Infinity"; "1.5"] =
  [true; true; true; false; false; false; false; false; false; false; false].
Proof. reflexivity. Qed.

Example number_toString_1000 : number_toString 1000 = "1000".
Proof. reflexivity. Qed.

Example number_toString_0 : number_toString 0 = "0".
Proof. reflexivity. Qed.

Example number_toString_minus_1 : number_toString (-1) = "-1".
Proof. reflexivity. Qed.

Lemma field_last (h : Heap) (o : gmap string JsValue) (k : string) :
  field (Normal (List.length h), (h ++ [o])%list) k = o !! k.
Proof. unfold field. by rewrite returned_last_eq. Qed.

(** C2, as stated: NaN is a numeric input, and the request id it gives on
    the wire is the string "NaN", which is no decimal string. *)
Lemma request_id_nan_not_decimal :
  returned (run nan_example []) = Some nan_example_envelope ∧
  nan_example_envelope !! Key.REQUEST_ID = Some (JsString "NaN") ∧
  canonical_decimal "NaN" = false ∧
  parse_decimal "NaN" = None.
Proof. repeat split; reflexivity. Qed.

(** C2, amended: with safe integers (at most 2^53 - 1 in magnitude) for
    requestId, openRequestId, offset and archiveSize, each of them is stored
    in the envelope as the string that number-to-string gives for it, which
    is its decimal rendering (digits without a leading zero, after a minus
    sign below zero, and reading the string as a decimal number gives the
    number back); the length of a read-file request is stored as the number
    itself, as any value given for it would be. *)
Theorem numeric_arguments_on_the_wire
    (h : Heap) (fs path buf : JsValue)
    (requestId openRequestId offset archiveSize length : Z) :
  is_safe_integer requestId = true ->
  is_safe_integer openRequestId = true ->
  is_safe_integer offset = true ->
  is_safe_integer archiveSize = true ->
  let rendered z := Some (JsString (number_toString z)) in
  let rid := JsNumber requestId in
  (field (createReadMetadataRequest fs rid (JsNumber archiveSize) h)
     Key.REQUEST_ID = rendered requestId ∧
   field (createReadMetadataRequest fs rid (JsNumber archiveSize) h)
     Key.ARCHIVE_SIZE = rendered archiveSize) ∧
  field (createReadChunkDoneResponse fs rid buf h) Key.REQUEST_ID =
    rendered requestId ∧
  field (createReadChunkErrorResponse fs rid h) Key.REQUEST_ID =
    rendered requestId ∧
  (field (createOpenFileRequest fs rid path (JsNumber archiveSize) h)
     Key.REQUEST_ID = rendered requestId ∧
   field (createOpenFileRequest fs rid path (JsNumber archiveSize) h)
     Key.ARCHIVE_SIZE = rendered archiveSize) ∧
  (field (createCloseFileRequest fs rid (JsNumber openRequestId) h)
     Key.REQUEST_ID = rendered requestId ∧
   field (createCloseFileRequest fs rid (JsNumber openRequestId) h)
     Key.OPEN_REQUEST_ID = rendered openRequestId) ∧
  (let out :=
     createReadFileRequest fs rid (JsNumber openRequestId) (JsNumber offset)
       (JsNumber length) h in
   field out Key.REQUEST_ID = rendered requestId ∧
   field out Key.OPEN_REQUEST_ID = rendered openRequestId ∧
   field out Key.OFFSET = rendered offset ∧
   field out Key.LENGTH = Some (JsNumber length)) ∧
  (∀ v : JsValue,
     field
       (createReadFileRequest fs rid (JsNumber openRequestId)
          (JsNumber offset) v h) Key.LENGTH = Some v) ∧
  (∀ z : Z,
     is_safe_integer z = true ->
     canonical_decimal (number_toString z) = true ∧
     parse_decimal (number_toString z) = Some z).
Proof.
  intros _ _ _ _.
  cbv zeta. repeat split;
    try (intros; apply canonical_number_toString);
    try (intros; apply parse_number_toString); intros;
    js_eval; rewrite field_last; reflexivity.
Qed.

Lemma numeric_arguments_on_the_wire_witness :
  field
    (createReadFileRequest (JsString "a") (JsNumber 4) (JsNumber 3)
       (JsNumber 9007199254740991) (JsNumber 100) []) Key.OFFSET =
  Some (JsString "9007199254740991").
Proof.
  destruct (numeric_arguments_on_the_wire [] (JsString "a")
              (JsString "/x.txt") (JsArrayBuffer []) 4 3 9007199254740991
              1000 100 eq_refl eq_refl eq_refl eq_refl)
    as (_ & _ & _ & _ & _ & (_ & _ & H & _) & _).
  exact H.
Defined.

(** ** The operation enumeration *)

Lemma operation_of_returned (c : Call) (h : Heap) (env : gmap string JsValue) :
  returned (run c h) = Some env ->
  env !! Key.OPERATION = Some (JsNumber (Operation.code (call_operation c))).
Proof.
  destruct c; js_run; intros H; try discriminate H;
    apply returned_last in H; try done; subst env; reflexivity.
Qed.

(** C4: the members of request.Operation are exactly the thirteen kinds of
    section 3, their numeric codes are pairwise distinct (0 to 11 in source
    order, then -1 for FILE_SYSTEM_ERROR), and every constructor sets the
    operation field to the code of its own kind: a call that returns leaves
    an envelope under the reference it returns, with that code under the
    operation key, and on arguments of the documented types it does
    return. *)
Theorem operation_enumeration :
  (map (fun o => (Operation.name o, Operation.code o)) Operation.all =
     Operation.entries ∧
   (∀ o : Operation.t, o ∈ Operation.all) ∧
   NoDup Operation.all ∧
   List.length Operation.all = 13%nat ∧
   map (fun o => kebab (Operation.name o)) Operation.all = section3_kinds) ∧
  (map Operation.code Operation.all = [0; 1; 2; 3; 4; 5; 6; 7; 8; 9; 10; 11; -1] ∧
   ∀ o1 o2 : Operation.t, Operation.code o1 = Operation.code o2 -> o1 = o2) ∧
  (∀ (c : Call) (h h' : Heap) (r : Ref),
     run c h = (Normal r, h') ->
     ∃ env : gmap string JsValue,
       h' !! r = Some env ∧
       env !! Key.OPERATION =
         Some (JsNumber (Operation.code (call_operation c)))) ∧
  (∀ (c : Call) (h : Heap),
     documented c = true ->
     ∃ (r : Ref) (h' : Heap) (env : gmap string JsValue),
       run c h = (Normal r, h') ∧
       h' !! r = Some env ∧
       env !! Key.OPERATION =
         Some (JsNumber (Operation.code (call_operation c)))).
Proof.
  split; [|split; [|split]].
  - repeat split; try reflexivity.
    + intros o. unfold Operation.all. destruct o; set_solver.
    + apply (bool_decide_unpack _). reflexivity.
  - split; [reflexivity|].
    intros o1 o2. destruct o1, o2; simpl; intros H; by try discriminate H.
  - intros c h h' r H.
    destruct (run_returns c h h' r H) as (env & _ & _ & Henv & Hret).
    exists env. split; [done|]. by eapply operation_of_returned.
  - intros c h Hc.
    destruct (run_documented c h Hc) as (env & Hrun).
    exists (List.length h), (h ++ [env])%list, env.
    split; [done|]. split; [by rewrite list_lookup_middle|].
    eapply operation_of_returned. rewrite Hrun. apply returned_last_eq.
Qed.

Lemma operation_enumeration_witness :
  ∃ env : gmap string JsValue,
    [metadata_example_envelope] !! 0%nat = Some env ∧
    env !! Key.OPERATION = Some (JsNumber 0).
Proof.
  exact (proj1 (proj2 (proj2 operation_enumeration)) metadata_example []
           [metadata_example_envelope] 0%nat metadata_example_run).
Defined.

(** ** Key names *)

(** C9, as the claim counts them: request.Key does not define eleven names. *)
Lemma key_names_not_eleven : List.length Key.values ≠ 11%nat.
Proof. discriminate. Qed.

(** C9, amended: the thirteen key names of request.Key are pairwise distinct;
    so in every envelope a constructor returns, no additional key is a
    mandatory one, the three mandatory keys still hold what createBasic_
    stored, and the envelope has 3 + n entries, n being the number of
    additional keys of its operation. *)
Theorem key_names_distinct :
  (List.length Key.values = 13%nat ∧ NoDup Key.values) ∧
  ∀ (c : Call) (h : Heap) (env : gmap string JsValue),
    returned (run c h) = Some env ->
    (∀ k : string, k ∈ section6_keys (call_operation c) -> k ∉ Key.mandatory) ∧
    (env !! Key.OPERATION = Some (op_value (call_operation c)) ∧
     env !! Key.FILE_SYSTEM_ID = Some (call_fileSystemId c) ∧
     ∃ s : string,
       toString (call_requestId c) = Normal s ∧
       env !! Key.REQUEST_ID = Some (JsString s)) ∧
    size env = (3 + List.length (section6_keys (call_operation c)))%nat.
Proof.
  split.
  - split; [reflexivity|]. apply (bool_decide_unpack _). reflexivity.
  - intros c h env H. split; [|split].
    + intros k Hk Hm. clear H.
      assert (bool_decide
                (Forall (fun k => k ∉ Key.mandatory)
                   (section6_keys (call_operation c)))) as Hall
        by (destruct c; reflexivity).
      apply bool_decide_unpack in Hall.
      rewrite Forall_forall in Hall. by apply (Hall k).
    + revert H.
      destruct c; cbn [call_operation call_fileSystemId call_requestId];
        js_run; intros H; try discriminate H;
        apply returned_last in H; try done; subst env;
        (split; [reflexivity|split; [reflexivity|]]);
        eexists; split; reflexivity.
    + revert H. destruct c; js_run; intros H; try discriminate H;
        apply returned_last in H; try done; subst env; reflexivity.
Qed.

Lemma key_names_distinct_witness :
  size read_file_example_envelope = 6%nat.
Proof.
  exact (proj2 (proj2 (proj2 key_names_distinct read_file_example []
                         read_file_example_envelope
                         read_file_example_returned))).
Defined.

(** ** Totality *)

(** C10: on arguments of the documented types every constructor returns an
    envelope and does not throw.  createReadFileRequest does so for every
    offset and length, whatever their sum, and records both as given;
    createOpenFileRequest does so for every file path and records it as
    given. *)
Theorem constructors_total :
  (∀ (c : Call) (h : Heap),
     documented c = true ->
     ∃ env : gmap string JsValue,
       run c h = (Normal (List.length h), (h ++ [env])%list)) ∧
  (∀ (fs : string) (rid orid offset length : Z) (h : Heap),
     ∃ env : gmap string JsValue,
       createReadFileRequest (JsString fs) (JsNumber rid) (JsNumber orid)
         (JsNumber offset) (JsNumber length) h =
         (Normal (List.length h), (h ++ [env])%list) ∧
       env !! Key.OFFSET = Some (JsString (number_toString offset)) ∧
       env !! Key.LENGTH = Some (JsNumber length)) ∧
  (∀ (fs filePath : string) (rid size : Z) (h : Heap),
     ∃ env : gmap string JsValue,
       createOpenFileRequest (JsString fs) (JsNumber rid) (JsString filePath)
         (JsNumber size) h =
         (Normal (List.length h), (h ++ [env])%list) ∧
       env !! Key.FILE_PATH = Some (JsString filePath)).
Proof.
  split; [|split].
  - intros c h Hc.
    destruct c; simpl in Hc;
      repeat match goal with
             | H : _ && _ = true |- _ => apply andb_prop in H as [? ?]
             | H : _ || _ = true |- _ => apply orb_prop in H as [?|?]
             | H : is_number ?v = true |- _ => destruct v; try discriminate H; clear H
             | H : is_string ?v = true |- _ => destruct v; try discriminate H; clear H
             | H : is_array_buffer ?v = true |- _ => destruct v; try discriminate H; clear H
             end;
      js_eval; eexists; reflexivity.
  - intros. js_eval. eexists. repeat split; reflexivity.
  - intros. js_eval. eexists. repeat split; reflexivity.
Qed.

Lemma constructors_total_witness :
  ∃ env : gmap string JsValue,
    run out_of_range_example [] = (Normal 0%nat, ([] ++ [env])%list).
Proof.
  exact (proj1 constructors_total out_of_range_example [] eq_refl).
Defined.

(** ** Statelessness *)

(** C6: a constructor keeps no state and touches nothing but the object it
    creates.  It leaves the store it finds as it was, adding one object
    behind it; what it returns or throws is the same for every store, so two
    calls with equal arguments return equal envelopes, also one after the
    other, and a call made earlier does not change what a later call of any
    constructor returns. *)
Theorem constructors_stateless (c c' : Call) (h h' : Heap) :
  (∃ o : gmap string JsValue, (run c h).2 = (h ++ [o])%list) ∧
  (returned (run c h) = returned (run c h') ∧
   thrown (run c h) = thrown (run c h')) ∧
  returned (run c (run c h).2) = returned (run c h) ∧
  (returned (run c' (run c h).2) = returned (run c' h) ∧
   thrown (run c' (run c h).2) = thrown (run c' h)).
Proof.
  assert (Hstore : ∀ (d : Call) (g g' : Heap),
             returned (run d g) = returned (run d g') ∧
             thrown (run d g) = thrown (run d g')).
  { intros d g g'.
    destruct (run_local d g) as (o & Ho & ->).
    destruct (run_local d g') as (o' & Ho' & ->).
    rewrite Ho in Ho'. injection Ho' as <-.
    destruct (run d []).1; [|done].
    by rewrite !returned_last_eq. }
  repeat split; try apply Hstore.
  destruct (run_local c h) as (o & _ & ->). by exists o.
Qed.

(** ** Encoding and decoding *)

Example decode_missing_key :
  decode (basic (op_value Operation.READ_METADATA) (JsString "a") "1") =
  inl MalformedMessage.
Proof. reflexivity. Qed.

Example decode_unknown_operation :
  decode (basic (JsNumber 42) (JsString "a") "1") = inl UnknownOperation.
Proof. reflexivity. Qed.

Example decode_ill_shaped :
  decode (<[Key.ARCHIVE_SIZE := JsNumber 1000]>
            (basic (op_value Operation.READ_METADATA) (JsString "a") "1")) =
  inl MalformedMessage.
Proof. reflexivity. Qed.

Section GetterLemmas.
Variable env : gmap string JsValue.
Variable k : string.

Lemma get_string_ok s : env !! k = Some (JsString s) -> get_string env k = Some s.
Proof. unfold get_string. by intros ->. Qed.

Lemma get_decimal_ok z :
  env !! k = Some (JsString (number_toString z)) -> get_decimal env k = Some z.
Proof. unfold get_decimal. intros ->. apply parse_number_toString. Qed.

Lemma get_number_ok z : env !! k = Some (JsNumber z) -> get_number env k = Some z.
Proof. unfold get_number. by intros ->. Qed.

Lemma get_boolean_ok b : env !! k = Some (JsBoolean b) -> get_boolean env k = Some b.
Proof. unfold get_boolean. by intros ->. Qed.

Lemma get_buffer_ok b : env !! k = Some (JsArrayBuffer b) -> get_buffer env k = Some b.
Proof. unfold get_buffer. by intros ->. Qed.

Lemma get_record_ok d : env !! k = Some (JsDictionary d) -> get_record env k = Some d.
Proof. unfold get_record. by intros ->. Qed.
End GetterLemmas.

Ltac getters :=
  repeat
    (first
       [ erewrite get_string_ok by reflexivity
       | erewrite get_decimal_ok by reflexivity
       | erewrite get_number_ok by reflexivity
       | erewrite get_boolean_ok by reflexivity
       | erewrite get_buffer_ok by reflexivity
       | erewrite get_record_ok by reflexivity ];
     cbn [mbind option_bind]).

Lemma of_code_code (o : Operation.t) : Operation.of_code (Operation.code o) = Some o.
Proof. by destruct o. Qed.

Lemma decode_ok (env : gmap string JsValue) (o : Operation.t) (m : Message) :
  env !! Key.OPERATION = Some (op_value o) ->
  decode_fields env o = Some m ->
  decode env = inr m.
Proof.
  unfold decode, op_value. intros -> Hm. by rewrite of_code_code, Hm.
Qed.

(** Encoding a typed message and decoding the envelope it leaves. *)
Lemma encode_decode (m : Message) (h : Heap) :
  safe_message m = true ->
  ∃ env : gmap string JsValue,
    encode m h = (Normal (List.length h), (h ++ [env])%list) ∧
    dom env =
      list_to_set (Key.mandatory ++ section6_keys (message_operation m))%list ∧
    decode env = inr m.
Proof.
  intros _.
  destruct m; unfold encode, encode_engine; js_eval;
    (eexists; split; [reflexivity|split;
      [ unfold basic; rewrite !dom_insert_L, dom_empty_L; gset_decide
      | match goal with
        | |- decode _ = inr ?m => apply (decode_ok _ (message_operation m))
        end;
        [ reflexivity
        | unfold decode_fields; cbn [message_operation]; getters;
          reflexivity ] ]]).
Qed.

(** C5, as stated: the offset Infinity is encoded as the string "Infinity",
    and decoding the envelope gives no typed value back. *)
Lemma infinite_offset_does_not_decode :
  returned (run infinity_example []) = Some infinity_example_envelope ∧
  infinity_example_envelope !! Key.OFFSET = Some (JsString "Infinity") ∧
  decode infinity_example_envelope = inl MalformedMessage.
Proof. repeat split; reflexivity. Qed.

(** C5, amended: every typed message whose ids, sizes, offsets and lengths
    are safe integers, of each of the thirteen operations, is encoded into
    an envelope with the keys of its row of the section 6 table, and
    decoding that envelope gives the same typed message back. *)
Theorem encode_decode_round_trip :
  (∀ o : Operation.t,
     ∃ m : Message, message_operation m = o ∧ safe_message m = true) ∧
  ∀ (m : Message) (h : Heap),
    safe_message m = true ->
    ∃ env : gmap string JsValue,
      encode m h = (Normal (List.length h), (h ++ [env])%list) ∧
      dom env =
        list_to_set (Key.mandatory ++ section6_keys (message_operation m))%list ∧
      decode env = inr m.
Proof.
  split; [|apply encode_decode].
  intros o. destruct o;
    [ exists (ReadMetadata "" 0 0) | exists (ReadMetadataDone "" 0 [])
    | exists (ReadChunk "" 0 0 0) | exists (ReadChunkDone "" 0 [])
    | exists (ReadChunkError "" 0) | exists (CloseVolume "")
    | exists (OpenFile "" 0 "" 0) | exists (OpenFileDone "" 0)
    | exists (CloseFile "" 0 0) | exists (CloseFileDone "" 0)
    | exists (ReadFile "" 0 0 0 0) | exists (ReadFileDone "" 0 [] false)
    | exists (FileSystemError "" 0 "") ]; split; reflexivity.
Qed.

Lemma encode_decode_round_trip_witness :
  ∃ env : gmap string JsValue,
    encode (ReadFile "a" 4 3 9007199254740991 100) [] =
      (Normal 0%nat, ([] ++ [env])%list) ∧
    dom env = list_to_set (Key.mandatory ++ section6_keys Operation.READ_FILE)%list ∧
    decode env = inr (ReadFile "a" 4 3 9007199254740991 100).
Proof.
  exact (proj2 encode_decode_round_trip
           (ReadFile "a" 4 3 9007199254740991 100) [] eq_refl).
Defined.

(** ** The archive size of a session *)




(** Delivery to a session that is there and not closed is a [step] of it. *)
Lemma deliver_live m (sessions : gmap string VolumeSession) v :
  sessions !! message_fs m = Some v ->
  sessionState v ≠ Closed ->
  deliver m sessions = (<[message_fs m := (step m v).1]> sessions, (step m v).2).
Proof.
  intros E Hst. unfold deliver. rewrite E.
  destruct (step m v) as [v' out]. simpl.
  by destruct (sessionState v), m.
Qed.

Lemma deliver_closed m (sessions : gmap string VolumeSession) v :
  sessions !! message_fs m = Some v ->
  sessionState v = Closed ->
  (deliver m sessions).1 = sessions ∧
  ((deliver m sessions).2 = Accepted -> ∃ fs, m = CloseVolume fs).
Proof.
  intros E Hst. unfold deliver. rewrite E, Hst.
  destruct m; simpl; split; try done; eauto.
Qed.

Lemma deliver_absent m (sessions : gmap string VolumeSession) :
  sessions !! message_fs m = None ->
  (∃ rid size,
     m = ReadMetadata (message_fs m) rid size ∧
     deliver m sessions =
       (<[message_fs m :=
            mkSession (message_fs m) size AwaitingMetadata ∅ None {[rid := m]}]>
          sessions, Accepted)) ∨
  deliver m sessions = (sessions, Failed InvalidSession).
Proof.
  intros E. unfold deliver. rewrite E.
  destruct m; simpl; eauto.
Qed.












Example sessions_a_reached :
  deliver_all
    [ReadMetadata "a" 1 1000; ReadMetadataDone "a" 1 [];
     OpenFile "a" 3 "/x.txt" 1000; OpenFileDone "a" 3] ∅ =
  (sessions_a, [Accepted; Accepted; Accepted; Accepted]).
Proof. reflexivity. Qed.

(** A read beyond the archive for a handle that was never opened: refused
    all the same, with the error of the missing handle. *)
Example exceeding_read_without_handle :
  (deliver_all [ReadMetadata "a" 1 1000; ReadFile "a" 4 3 900 200] ∅).2 =
  [Accepted; Failed InvalidHandle].
Proof. reflexivity. Qed.

(** The file scenario of section 8: read, close, and a read after the close. *)
Example file_scenario :
  deliver_all
    [ReadFile "a" 4 3 0 100; ReadFileDone "a" 4 [] false; CloseFile "a" 5 3;
     CloseFileDone "a" 5; ReadFile "a" 6 3 0 100]
    sessions_a =
  ({["a" := mkSession "a" 1000 Ready ∅ None ∅]},
   [Accepted; Accepted; Accepted; Accepted; Failed InvalidHandle]).
Proof. reflexivity. Qed.

(** close-volume while a request is pending, and a message after it. *)
Example close_scenario :
  deliver_all
    [ReadFile "a" 4 3 0 100; CloseVolume "a"; ReadFile "a" 5 3 0 10;
     CloseVolume "a"]
    sessions_a =
  ({["a" := mkSession "a" 1000 Closed ∅ None ∅]},
   [Accepted; Accepted; Failed InvalidSession; Accepted]).
Proof. reflexivity. Qed.

Example sessions_a_usable_after_out_of_range :
  deliver_all
    [ReadFile "a" 4 3 900 200; ReadFile "a" 5 3 0 100; ReadFileDone "a" 5 [] false]
    sessions_a =
  (sessions_a, [Failed OutOfRange; Accepted; Accepted]).
Proof. reflexivity. Qed.


(** ** The close-volume request *)

Example no_close_volume_done :
  Operation.done_of Operation.CLOSE_VOLUME = None ∧
  Operation.done_of Operation.CLOSE_FILE = Some 9.
Proof. split; reflexivity. Qed.

Lemma deliver_answer_to_closed
    (sessions : gmap string VolumeSession) (v : VolumeSession) (m : Message) :
  sessions !! message_fs m = Some v ->
  sessionState v = Closed ->
  is_answer m = true ->
  deliver m sessions = (sessions, Failed InvalidSession).
Proof.
  intros E Hc Hm. unfold deliver. rewrite E, Hc.
  by destruct m.
Qed.

(** C3: for every file system id, createCloseVolumeRequest returns an
    envelope whose operation is CLOSE_VOLUME, whose request id is the string
    "-1" and whose keys are the three mandatory ones only.  No response is
    expected for it: a session that receives this envelope closes at once,
    keeps no pending request (none under the id -1 either) and no pending
    pull, and fails every answer the engine sends for it afterwards with
    InvalidSession. *)
Theorem close_volume_request (fileSystemId : string) (h : Heap) :
  ∃ env : gmap string JsValue,
    createCloseVolumeRequest (JsString fileSystemId) h =
      (Normal (List.length h), (h ++ [env])%list) ∧
    (env !! Key.OPERATION =
       Some (JsNumber (Operation.code Operation.CLOSE_VOLUME)) ∧
     env !! Key.FILE_SYSTEM_ID = Some (JsString fileSystemId) ∧
     env !! Key.REQUEST_ID = Some (JsString "-1") ∧
     dom env = list_to_set Key.mandatory) ∧
    ∀ (sessions : gmap string VolumeSession) (v : VolumeSession),
      sessions !! fileSystemId = Some v ->
      sessionState v ≠ Closed ->
      ∃ (sessions' : gmap string VolumeSession) (v' : VolumeSession),
        receive env sessions = (sessions', Accepted) ∧
        sessions' !! fileSystemId = Some v' ∧
        sessionState v' = Closed ∧
        pendingRequests v' = ∅ ∧
        pendingChunkRequest v' = None ∧
        ∀ m : Message,
          message_fs m = fileSystemId ->
          is_answer m = true ->
          deliver m sessions' = (sessions', Failed InvalidSession).
Proof.
  destruct (encode_decode (CloseVolume fileSystemId) h eq_refl)
    as (env & Hrun & _ & Hdec).
  simpl in Hrun. exists env. split; [done|].
  assert (env = basic (op_value Operation.CLOSE_VOLUME) (JsString fileSystemId) "-1")
    as Henv.
  { revert Hrun. js_eval. intros [= Happ].
    apply app_inj_tail in Happ as [_ <-]. reflexivity. }
  split.
  - subst env. repeat split; reflexivity.
  - intros sessions v Hv Hlive.
    exists (<[fileSystemId := closed v]> sessions), (closed v).
    split; [|split; [|repeat split]].
    + unfold receive. rewrite Hdec.
      by rewrite (deliver_live _ sessions v).
    + apply lookup_insert_eq.
    + intros m Hfs Hm.
      apply (deliver_answer_to_closed _ (closed v)); try done.
      rewrite Hfs. apply lookup_insert_eq.
Qed.

Lemma close_volume_request_witness :
  ∃ (env : gmap string JsValue) (sessions' : gmap string VolumeSession),
    createCloseVolumeRequest (JsString "a") [] =
      (Normal 0%nat, ([] ++ [env])%list) ∧
    receive env sessions_a = (sessions', Accepted) ∧
    ∀ m : Message,
      message_fs m = "a" ->
      is_answer m = true ->
      deliver m sessions' = (sessions', Failed InvalidSession).
Proof.
  destruct (close_volume_request "a" []) as (env & Hrun & _ & Hs).
  destruct (Hs sessions_a session_a eq_refl ltac:(discriminate))
    as (sessions' & v' & Hr & _ & _ & _ & _ & Hans).
  exists env, sessions'. split; [exact Hrun|]. split; [exact Hr|exact Hans].
Defined.

(** ** One chunk pull at a time *)

Lemma register_gate rid m v :
  pendingChunkRequest (register rid m v).1 = pendingChunkRequest v ∧
  sessionState (register rid m v).1 = sessionState v.
Proof. unfold register. by destruct (pendingRequests v !! rid). Qed.

Lemma answer_gate rid m v :
  sessionState (answer rid m v).1 = Closed ∨
  pendingChunkRequest (answer rid m v).1 = pendingChunkRequest v.
Proof.
  unfold answer. destruct (pendingRequests v !! rid) as [request|]; [|auto].
  destruct (resolve request m v) as [v'|] eqn:E; [|auto].
  simpl. destruct request, m; simpl in E; simplify_eq; simpl; auto.
Qed.

Lemma track_quiet fs m out acc :
  is_chunk_message m = false -> track fs m out acc = acc.
Proof. destruct m, out; simpl; intros; by try discriminate. Qed.

Lemma step_quiet m v :
  is_chunk_message m = false ->
  sessionState (step m v).1 = Closed ∨
  pendingChunkRequest (step m v).1 = pendingChunkRequest v.
Proof.
  destruct m; simpl; intros Hm; try discriminate Hm;
    try (right; apply register_gate);
    try apply answer_gate;
    try (by left);
    try match goal with
        | |- context [register ?r ?m ?v] =>
            pose proof (proj1 (register_gate r m v))
        end;
    repeat case_match; simplify_eq/=; auto.
Qed.

Lemma step_gate fs m v :
  message_fs m = fs ->
  let acc := option_list (pendingChunkRequest v) in
  let acc' := track fs m (step m v).2 acc in
  if decide (sessionState (step m v).1 = Closed) then (List.length acc' <= 1)%nat
  else acc' = option_list (pendingChunkRequest (step m v).1).
Proof.
  intros Hfs acc acc'.
  assert (List.length acc <= 1)%nat as Hacc
    by (unfold acc; destruct (pendingChunkRequest v); simpl; lia).
  destruct (is_chunk_message m) eqn:Hm.
  - assert (sessionState (step m v).1 = sessionState v) as Hst
      by (destruct m; try discriminate Hm; simpl; by repeat case_match).
    assert (acc' = option_list (pendingChunkRequest (step m v).1)) as Hacc'.
    { unfold acc', acc. clear acc acc' Hacc Hst.
      destruct m; try discriminate Hm; simpl in Hfs; subst fs; simpl;
        destruct (pendingChunkRequest v) as [p|] eqn:Hp; simpl;
        repeat case_match; simplify_eq/=; rewrite ?String.eqb_refl, ?Hp;
        simpl; try done.
      all: match goal with
           | H : (?a =? ?b)%Z = true |- _ => by rewrite H
           end. }
    case_decide; [|done].
    rewrite Hacc'. destruct (pendingChunkRequest (step m v).1); simpl; lia.
  - unfold acc'. rewrite track_quiet by done.
    destruct (step_quiet m v Hm) as [Hc|Hp].
    + by rewrite decide_True.
    + case_decide; [done|]. unfold acc. by rewrite Hp.
Qed.

Lemma deliver_other m (sessions : gmap string VolumeSession) fs :
  message_fs m ≠ fs -> (deliver m sessions).1 !! fs = sessions !! fs.
Proof.
  intros Hne.
  destruct (sessions !! message_fs m) as [v|] eqn:E.
  - destruct (decide (sessionState v = Closed)) as [Hc|Hc].
    + by destruct (deliver_closed m sessions v E Hc) as [-> _].
    + rewrite (deliver_live m sessions v E Hc). simpl.
      by rewrite lookup_insert_ne.
  - destruct (deliver_absent m sessions E) as [(rid & size & _ & ->)| ->];
      simpl; [|done].
    by rewrite lookup_insert_ne.
Qed.

Lemma track_other fs m out acc : message_fs m ≠ fs -> track fs m out acc = acc.
Proof.
  intros Hne. destruct out; [|by destruct m].
  destruct m; simpl in *; try done;
    by destruct (String.eqb_spec fs0 fs).
Qed.

Lemma gate_agrees_length fs (sessions : gmap string VolumeSession) acc :
  gate_agrees fs sessions acc -> (List.length acc <= 1)%nat.
Proof.
  unfold gate_agrees. destruct (sessions !! fs) as [v|].
  - case_decide; [done|]. intros ->.
    destruct (pendingChunkRequest v); simpl; lia.
  - intros ->. simpl. lia.
Qed.

Lemma deliver_gate fs m (sessions : gmap string VolumeSession) acc :
  gate_agrees fs sessions acc ->
  gate_agrees fs (deliver m sessions).1 (track fs m (deliver m sessions).2 acc).
Proof.
  intros Hg.
  destruct (decide (message_fs m = fs)) as [Hfs|Hne].
  - unfold gate_agrees in *. subst fs.
    destruct (sessions !! message_fs m) as [v|] eqn:E.
    + destruct (decide (sessionState v = Closed)) as [Hc|Hc].
      * destruct (deliver_closed m sessions v E Hc) as [Hs Hout].
        rewrite Hs, E. rewrite decide_True by done.
        destruct (deliver m sessions).2 eqn:Eo; [|by destruct m].
        destruct (Hout eq_refl) as [fs ->]. done.
      * rewrite (deliver_live m sessions v E Hc). simpl.
        rewrite lookup_insert_eq. subst acc.
        by apply step_gate.
    + subst acc.
      destruct (deliver_absent m sessions E) as [(rid & size & Hm & ->)| ->];
        simpl.
      * rewrite lookup_insert_eq. simpl. by rewrite Hm.
      * rewrite E. by destruct m.
  - rewrite track_other by done.
    unfold gate_agrees. by rewrite deliver_other.
Qed.

Lemma outstanding_gate fs ms (sessions : gmap string VolumeSession) acc :
  gate_agrees fs sessions acc ->
  (List.length (outstanding fs ms sessions acc) <= 1)%nat.
Proof.
  revert sessions acc. induction ms as [|m ms IH]; intros sessions acc Hg; simpl.
  - by eapply gate_agrees_length.
  - pose proof (deliver_gate fs m sessions acc Hg) as Hg'.
    destruct (deliver m sessions) as [sessions' out]. by apply IH.
Qed.

Lemma deliver_second_pull
    (sessions : gmap string VolumeSession) v fs p rid offset len :
  sessions !! fs = Some v ->
  sessionState v ≠ Closed ->
  pendingChunkRequest v = Some p ->
  deliver (ReadChunk fs rid offset len) sessions =
    (sessions, Failed ProtocolViolation).
Proof.
  intros Hv Hst Hp.
  rewrite (deliver_live _ sessions v) by done.
  simpl. rewrite Hp. simpl. by rewrite insert_id.
Qed.

(** C8: a session has at most one read-chunk pull outstanding at any time.
    While a pull of a session is outstanding, a further read-chunk for it is
    answered ProtocolViolation and changes nothing; and over every sequence
    of messages delivered from the start, the pulls of a session that were
    accepted and are not yet answered by read-chunk-done or read-chunk-error
    number at most one. *)
Theorem one_chunk_pull_outstanding :
  (∀ (sessions : gmap string VolumeSession) v fs p rid offset len,
     sessions !! fs = Some v ->
     sessionState v ≠ Closed ->
     pendingChunkRequest v = Some p ->
     deliver (ReadChunk fs rid offset len) sessions =
       (sessions, Failed ProtocolViolation)) ∧
  (∀ (fs : string) (ms : list Message),
     (List.length (outstanding fs ms ∅ []) <= 1)%nat).
Proof.
  split.
  - apply deliver_second_pull.
  - intros fs ms. apply outstanding_gate.
    unfold gate_agrees. by rewrite lookup_empty.
Qed.

Example pull_scenario :
  deliver_all
    [ReadChunk "a" 2 0 512; ReadChunk "a" 6 512 100; ReadChunkDone "a" 2 [];
     ReadChunk "a" 6 512 100; ReadChunkError "a" 6]
    sessions_a =
  (sessions_a,
   [Accepted; Failed ProtocolViolation; Accepted; Accepted; Accepted]).
Proof. reflexivity. Qed.

Example pull_scenario_outstanding :
  outstanding "a" [ReadChunk "a" 2 0 512; ReadChunk "a" 6 512 100] sessions_a [] =
  [2].
Proof. reflexivity. Qed.

Lemma one_chunk_pull_outstanding_witness :
  deliver (ReadChunk "a" 6 512 100) sessions_a_pulling =
  (sessions_a_pulling, Failed ProtocolViolation).
Proof.
  apply (proj1 one_chunk_pull_outstanding sessions_a_pulling
           (with_chunk session_a (Some 2)) "a" 2 6 512 100);
    [reflexivity|discriminate|reflexivity].
Defined.

(** ** Failing calls *)



Example masked_toString_throws :
  thrown (run masked_toString_example []) = Some TypeError.
Proof. reflexivity. Qed.

(** ** Arguments passed through *)

(** X2: the file system id, the buffer, the file path and the length are
    assigned as they are, without conversion or check: in every envelope a
    constructor returns each of them is found under its key exactly as it
    was given, also when it is undefined or null, so that a missing argument
    leaves its key in the envelope with the value undefined. *)
Theorem passed_through_as_given
    (c : Call) (h : Heap) (env : gmap string JsValue) (k : string) (v : JsValue) :
  returned (run c h) = Some env ->
  (k, v) ∈ passed_through c ->
  env !! k = Some v.
Proof.
  destruct c; cbn [passed_through]; js_run; intros H Hin; try discriminate H;
    apply returned_last in H; try done; subst env;
    repeat match goal with
           | Hin : _ ∈ _ :: _ |- _ =>
               apply elem_of_cons in Hin as [[= -> ->]|Hin]; [reflexivity|]
           end;
    by apply elem_of_nil in Hin.
Qed.

Lemma missing_buffer_returned :
  returned (run missing_buffer_example []) = Some missing_buffer_envelope.
Proof. reflexivity. Qed.

Lemma passed_through_as_given_witness :
  missing_buffer_envelope !! Key.CHUNK_BUFFER = Some JsUndefined.
Proof.
  apply (passed_through_as_given missing_buffer_example []
           missing_buffer_envelope Key.CHUNK_BUFFER JsUndefined
           missing_buffer_returned).
  cbn [passed_through missing_buffer_example].
  apply elem_of_cons. right. apply elem_of_cons. by left.
Defined.

(** ** Numbers and strings *)

Lemma toString_rendered (v : JsValue) : toString (rendered v) = toString v.
Proof. by destruct v. Qed.

(** X3: a constructor sees the arguments it converts through toString only,
    and a string is its own rendering: giving an id, size or offset that is
    a safe integer as the string of its digits instead of the number gives
    the same envelope, or the same exception, so the wire does not tell the
    two apart. *)
Theorem number_or_its_string (c : Call) (h : Heap) :
  safe_converted c = true ->
  run (map_converted rendered c) h = run c h.
Proof.
  intros _.
  destruct c; cbn [map_converted]; js_unfold;
    repeat (repeat js_step; rewrite ?toString_rendered;
            try match goal with
                | |- context [toString ?v] => destruct (toString v)
                end);
    reflexivity.
Qed.

Lemma number_or_its_string_witness :
  run (CallOpenFile (JsString "a") (JsString "3") (JsString "/x.txt")
         (JsString "1000")) [] =
  run (CallOpenFile (JsString "a") (JsNumber 3) (JsString "/x.txt")
         (JsNumber 1000)) [].
Proof.
  exact (number_or_its_string
           (CallOpenFile (JsString "a") (JsNumber 3) (JsString "/x.txt")
              (JsNumber 1000)) [] eq_refl).
Defined.

Example open_file_size_as_string :
  run (CallOpenFile (JsString "a") (JsNumber 3) (JsString "/x.txt")
         (JsString "1000")) [] =
  run (CallOpenFile (JsString "a") (JsNumber 3) (JsString "/x.txt")
         (JsNumber 1000)) [].
Proof. reflexivity. Qed.

(** ** Envelopes are fresh objects *)

Lemma run_normal (c : Call) (h : Heap) (r : Ref) (h' : Heap) :
  run c h = (Normal r, h') ->
  r = List.length h ∧ ∃ o : gmap string JsValue, h' = (h ++ [o])%list.
Proof.
  destruct (run_local c h) as (o & _ & ->).
  destruct (run c []).1; intros [= <- <-]; eauto.
Qed.

(** X4: no two calls return the same object.  The reference a call returns
    is not in the store before the call, a later call returns a different
    one and leaves the earlier envelope as it was, and assigning a property
    of one of the two envelopes afterwards does not change the other. *)
Theorem envelopes_not_shared
    (c c' : Call) (h h1 h2 : Heap) (r r' : Ref) (k : string) (v : JsValue) :
  run c h = (Normal r, h1) ->
  run c' h1 = (Normal r', h2) ->
  h !! r = None ∧
  r ≠ r' ∧
  h2 !! r = h1 !! r ∧
  (set_prop r k v h2).2 !! r' = h2 !! r' ∧
  (set_prop r' k v h2).2 !! r = h2 !! r.
Proof.
  intros H1 H2.
  apply run_normal in H1 as (-> & o & ->).
  apply run_normal in H2 as (-> & o' & ->).
  rewrite List.length_app. simpl.
  repeat split.
  - apply lookup_ge_None. lia.
  - lia.
  - rewrite lookup_app_l; [done|]. rewrite List.length_app. simpl. lia.
  - apply list_lookup_alter_ne. lia.
  - apply list_lookup_alter_ne. lia.
Qed.

Lemma envelopes_not_shared_witness :
  let h2 := [metadata_example_envelope; out_of_range_envelope] in
  ([] : Heap) !! 0%nat = None ∧
  (0 ≠ 1)%nat ∧
  h2 !! 0%nat = [metadata_example_envelope] !! 0%nat ∧
  (set_prop 0 Key.LENGTH (JsNumber 0) h2).2 !! 1%nat = h2 !! 1%nat ∧
  (set_prop 1 Key.LENGTH (JsNumber 0) h2).2 !! 0%nat = h2 !! 0%nat.
Proof.
  exact (envelopes_not_shared metadata_example out_of_range_example []
           [metadata_example_envelope]
           [metadata_example_envelope; out_of_range_envelope]
           0%nat 1%nat Key.LENGTH (JsNumber 0) eq_refl eq_refl).
Defined.

(** ** Reading a call back from its envelope *)

Lemma number_toString_inj (z z' : Z) :
  number_toString z = number_toString z' -> z = z'.
Proof.
  intros H. pose proof (parse_number_toString z) as Hz.
  rewrite H, parse_number_toString in Hz. congruence.
Qed.

Lemma operation_field (c : Call) (h : Heap) (env : gmap string JsValue) :
  returned (run c h) = Some env ->
  env !! Key.OPERATION = Some (op_value (call_operation c)).
Proof.
  destruct c; js_run; intros H; try discriminate H;
    apply returned_last in H; try done; subst env; reflexivity.
Qed.

Lemma same_envelope_same_operation
    (c c' : Call) (h h' : Heap) (env : gmap string JsValue) :
  returned (run c h) = Some env ->
  returned (run c' h') = Some env ->
  call_operation c = call_operation c'.
Proof.
  intros H H'.
  apply operation_field in H. apply operation_field in H'.
  rewrite H in H'. injection H' as Hcode.
  destruct (call_operation c), (call_operation c'); by try discriminate Hcode.
Qed.

Lemma get_value_ok (env : gmap string JsValue) (k : string) (v : JsValue) :
  env !! k = Some v -> get_value env k = Some v.
Proof. done. Qed.

Ltac read_back :=
  repeat
    (first
       [ erewrite get_value_ok by reflexivity
       | erewrite get_decimal_ok by reflexivity ];
     cbn [mbind option_bind]).

(** Reading back the envelope of a call gives the call. *)
Lemma read_call_run (c : Call) (h : Heap) (env : gmap string JsValue) :
  numeric_ids c = true ->
  returned (run c h) = Some env ->
  read_call env = Some c.
Proof.
  intros Hn H.
  unfold read_call. rewrite (operation_field c h env H).
  unfold op_value. rewrite of_code_code.
  revert H.
  destruct c; unfold numeric_ids in Hn; cbn [converted forallb] in Hn;
    repeat match goal with
           | H : _ && _ = true |- _ => apply andb_prop in H as [? ?]
           | H : is_number ?v = true |- _ =>
               destruct v; try discriminate H; clear H
           | H : true = true |- _ => clear H
           end;
    js_eval; intros H; apply returned_last in H; try done; subst env;
    cbn [call_operation mbind option_bind];
    erewrite (get_value_ok _ Key.FILE_SYSTEM_ID) by reflexivity;
    cbn [mbind option_bind]; read_back; reflexivity.
Qed.

Lemma same_envelope_same_call
    (c c' : Call) (h h' : Heap) (env : gmap string JsValue) :
  numeric_ids c = true ->
  numeric_ids c' = true ->
  returned (run c h) = Some env ->
  returned (run c' h') = Some env ->
  c = c'.
Proof.
  intros Hn Hn' H H'.
  apply read_call_run in H; [|done]. apply read_call_run in H'; [|done].
  congruence.
Qed.

(** X5: the envelope tells the call that built it.  Two calls that return
    equal envelopes are calls of the same constructor; and if the ids, sizes
    and offsets they convert are numbers, they are the same call, every
    argument equal. *)
Theorem envelope_determines_call
    (c c' : Call) (h h' : Heap) (env : gmap string JsValue) :
  returned (run c h) = Some env ->
  returned (run c' h') = Some env ->
  call_operation c = call_operation c' ∧
  (numeric_ids c = true -> numeric_ids c' = true -> c = c').
Proof.
  intros H H'. split.
  - by eapply same_envelope_same_operation.
  - intros Hn Hn'. by eapply same_envelope_same_call.
Qed.

Lemma envelope_determines_call_witness :
  call_operation read_file_example = call_operation read_file_example ∧
  (numeric_ids read_file_example = true ->
   numeric_ids read_file_example = true ->
   read_file_example = read_file_example).
Proof.
  exact (envelope_determines_call read_file_example read_file_example [] []
           read_file_example_envelope read_file_example_returned
           read_file_example_returned).
Defined.

(** ** The reserved request id *)

(** X6: with a number for the request id, the envelope carries the request
    id "-1" exactly when that number is -1.  So no other id is mistaken for
    the one of close-volume, and nothing keeps a caller from passing -1 to
    another constructor. *)
Theorem request_id_minus_one
    (c : Call) (h : Heap) (env : gmap string JsValue) (z : Z) :
  call_requestId c = JsNumber z ->
  returned (run c h) = Some env ->
  env !! Key.REQUEST_ID = Some (JsString "-1") <-> z = -1.
Proof.
  intros Hz H.
  assert (env !! Key.REQUEST_ID = Some (JsString (number_toString z))) as ->.
  { revert H. destruct c; simpl in Hz; subst; try injection Hz as <-;
      js_run; intros H; try discriminate H;
      apply returned_last in H; try done; subst env;
      repeat match goal with
             | E : toString (JsNumber _) = _ |- _ =>
                 cbn [toString] in E; injection E as <-
             end;
      reflexivity. }
  split.
  - intros [= Hs]. by apply number_toString_inj.
  - by intros ->.
Qed.

Lemma request_id_minus_one_witness :
  read_file_example_envelope !! Key.REQUEST_ID = Some (JsString "-1") <-> 4 = -1.
Proof.
  exact (request_id_minus_one read_file_example [] read_file_example_envelope 4
           eq_refl read_file_example_returned).
Defined.
